(** * ArchiveCompatibilityChecker: a shallow embedding of the Mod Organizer
    plugin [src/ArchiveCompatibilityChecker.py] and the properties of its
    archive-format sniffer and diagnostic scan.

    The plugin is a Python object with a handful of fields; its methods
    query the host, the file system, and raise exceptions.  The embedding
    threads an explicit state (the plugin object, the file system and a log
    of file accesses) through a small state-and-exception monad. *)

From Stdlib Require Import ZArith Strings.Ascii Strings.Byte.

From stdpp Require Import base gmap strings list fin_maps.

Open Scope Z_scope.

(** * Part I: the plugin *)

(** ** Enumerations

    Both enumerations are [enum.IntEnum] classes numbered by [enum.auto()],
    that is 1, 2, 3, ... in declaration order. *)

Inductive Problem := NONE | NOT_A_FILE | WRONG_EXTENSION | WRONG_FORMAT.

Inductive FileFormat := UNKNOWN | TES3 | TES4 | FO3 | SSE | FO4.

#[global] Instance Problem_eq_dec : EqDecision Problem.
Proof. solve_decision. Defined.

#[global] Instance FileFormat_eq_dec : EqDecision FileFormat.
Proof. solve_decision. Defined.

Module ProblemEnum.
(** [x.value] *)
Definition value (p : Problem) : Z :=
  match p with
  | NONE => 1
  | NOT_A_FILE => 2
  | WRONG_EXTENSION => 3
  | WRONG_FORMAT => 4
  end.
End ProblemEnum.

Module FileFormatEnum.
Definition value (f : FileFormat) : Z :=
  match f with
  | UNKNOWN => 1
  | TES3 => 2
  | TES4 => 3
  | FO3 => 4
  | SSE => 5
  | FO4 => 6
  end.

(** The members of the class, in declaration order. *)
Definition members : list FileFormat := [UNKNOWN; TES3; TES4; FO3; SSE; FO4].
End FileFormatEnum.

(** ** Dataclasses *)

Record ProblemArchive := mkProblemArchive {
  path : string;
  problem : Problem
}.

Record Description := mkDescription {
  short : string;
  long : string
}.

(** ** Exceptions and outcomes *)

Inductive exn :=
| AttributeError      (* method call on [None] *)
| KeyError            (* [d[k]] with [k] missing *)
| ValueError          (* [Problem(key)] on a non-member, [startGuidedFix] *)
| IndexError
| StructError         (* [struct.error]: wrong buffer length for [unpack] *)
| FileNotFoundError
| PermissionError.

(* opening a directory *)

Inductive outcome (A : Type) :=
| Return (a : A)
| Raise (e : exn).

Arguments Return {A} a.

Arguments Raise {A} e.

(** ** The file system and the host *)

(** What a path names.  [st_size] is what [stat] reports; [data] is what
    [read] delivers.  The two are separate system calls in the source, so
    they are separate fields here; [node_consistent] relates them. *)
Inductive node :=
| RegularFile (st_size : Z) (data : list byte)
| Directory (st_size : Z).

Definition node_consistent (n : node) : Prop :=
  match n with
  | RegularFile st_size data => st_size = Z.of_nat (length data)
  | Directory _ => True
  end.

Definition fs_consistent (fs : gmap string node) : Prop :=
  ∀ p n, fs !! p = Some n → node_consistent n.

(** The host's answers to the two queries the plugin makes:
    [managedGame().gameName()] and [findFiles(path, pattern)]. *)
Record IOrganizer := mkOrganizer {
  gameName : string;
  findFiles : string → string → list string
}.

(** File accesses, as they are logged. *)
Inductive event :=
| EvIsFile (p : string)
| EvStat (p : string)
| EvOpen (p : string) (mode : string)
| EvRead (p : string) (offset : nat) (count : nat) (got : list byte).

(** An open file object: the path it was opened on and its position. *)
Record file := mkFile {
  file_path : string;
  file_pos : nat
}.

(** ** The plugin object *)

Record ArchiveCompatibilityChecker := mkChecker {
  __organizer : option IOrganizer;
  __archives : list ProblemArchive;
  __descriptions : gmap Z Description;   (* keyed by the IntEnum member *)
  __supportedGames : gset string;
  __gameToExt : gmap string string;
  __gameToFmt : gmap string FileFormat;
  __magics : gmap Z FileFormat;
  __tes4Versions : gmap Z FileFormat
}.

Record state := mkState {
  self : ArchiveCompatibilityChecker;
  fs : gmap string node;
  trace : list event
}.

(** ** The monad *)

Definition M (A : Type) : Type := state → outcome A * state.

Definition ret {A} (a : A) : M A := λ s, (Return a, s).

Definition bind {A B} (m : M A) (k : A → M B) : M B :=
  λ s, match m s with
       | (Return a, s') => k a s'
       | (Raise e, s') => (Raise e, s')
       end.

Definition raise {A} (e : exn) : M A := λ s, (Raise e, s).

Definition gets {A} (f : state → A) : M A := λ s, (Return (f s), s).

Definition modify (f : state → state) : M unit := λ s, (Return tt, f s).

#[global] Instance M_ret : MRet M := @ret.

#[global] Instance M_bind : MBind M := λ A B k m, bind m k.

Definition log (e : event) : M unit :=
  modify (λ s, mkState (self s) (fs s) (trace s ++ [e])).

(** [d[k]] on a dict. *)
Definition getitem {K V} `{Countable K} (d : gmap K V) (k : K) : M V :=
  match d !! k with
  | Some v => ret v
  | None => raise KeyError
  end.

(** [d.get(k, dflt)] on a dict. *)
Definition dict_get {K V} `{Countable K} (d : gmap K V) (k : K) (dflt : V) : V :=
  default dflt (d !! k).

(** ** [struct.Struct("<I")]: one little-endian unsigned 32-bit integer *)

Definition byte_val (b : byte) : Z := Z.of_N (Byte.to_N b).

Definition le32 (b0 b1 b2 b3 : byte) : Z :=
  Z.lor (Z.lor (Z.lor (byte_val b0) (Z.shiftl (byte_val b1) 8))
               (Z.shiftl (byte_val b2) 16))
        (Z.shiftl (byte_val b3) 24).

(** [self.__u32.unpack(buf)[0]]; a buffer that is not exactly 4 bytes long
    raises [struct.error]. *)
Definition u32_unpack (buf : list byte) : M Z :=
  match buf with
  | [b0; b1; b2; b3] => ret (le32 b0 b1 b2 b3)
  | _ => raise StructError
  end.

(** ** [pathlib] and file objects *)

(** Index of the last ["."] of [s], counting from [i]. *)
Fixpoint rfind_dot (s : string) (i : nat) : option nat :=
  match s with
  | EmptyString => None
  | String c s' =>
      match rfind_dot s' (S i) with
      | Some j => Some j
      | None => if Ascii.eqb c "."%char then Some i else None
      end
  end.

Definition backslash : Ascii.ascii := Ascii.ascii_of_nat 92.

(** Last component of a path: what follows the last separator. *)
Fixpoint path_name_aux (s : string) (acc : string) : string :=
  match s with
  | EmptyString => acc
  | String c s' =>
      if Ascii.eqb c "/"%char || Ascii.eqb c backslash
      then path_name_aux s' s'
      else path_name_aux s' acc
  end.

Definition path_name (p : string) : string := path_name_aux p p.

(** [path.suffix]: the name from its last dot on, unless that dot is the
    first or the last character of the name. *)
Definition path_suffix (p : string) : string :=
  let name := path_name p in
  match rfind_dot name 0 with
  | Some i =>
      if (0 <? i)%nat && (i <? String.length name - 1)%nat
      then String.substring i (String.length name - i) name
      else ""
  | None => ""
  end.

(** [path.is_file()] *)
Definition path_is_file (p : string) : M bool :=
  log (EvIsFile p);;
  fs ← gets fs;
  ret (match fs !! p with
       | Some (RegularFile _ _) => true
       | _ => false
       end).

(** [path.stat().st_size] *)
Definition path_stat (p : string) : M Z :=
  log (EvStat p);;
  fs ← gets fs;
  match fs !! p with
  | Some (RegularFile st_size _) => ret st_size
  | Some (Directory st_size) => ret st_size
  | None => raise FileNotFoundError
  end.

(** Does an [open] mode truncate or create the file? *)
Definition mode_writes (mode : string) : bool :=
  existsb (λ c, Ascii.eqb c "w"%char || Ascii.eqb c "a"%char || Ascii.eqb c "x"%char
                || Ascii.eqb c "+"%char)
          (String.list_ascii_of_string mode).

Definition mode_truncates (mode : string) : bool :=
  existsb (λ c, Ascii.eqb c "w"%char) (String.list_ascii_of_string mode).

(** [path.open(mode=...)].  Read modes leave the file system alone; a mode
    with ["w"] empties or creates the file. *)
Definition path_open (p : string) (mode : string) : M file :=
  log (EvOpen p mode);;
  fs ← gets fs;
  match fs !! p with
  | Some (Directory _) => raise PermissionError
  | Some (RegularFile _ _) =>
      (if mode_truncates mode
       then modify (λ s, mkState (self s) (<[p := RegularFile 0 []]> (fs)) (trace s))
       else ret tt);;
      ret (mkFile p 0)
  | None =>
      if mode_writes mode
      then modify (λ s, mkState (self s) (<[p := RegularFile 0 []]> (fs)) (trace s));;
           ret (mkFile p 0)
      else raise FileNotFoundError
  end.

(** [file.read(n)]: up to [n] bytes from the current position, which
    advances by what was delivered. *)
Definition file_read (f : file) (n : nat) : M (list byte * file) :=
  fs ← gets fs;
  let data := match fs !! file_path f with
              | Some (RegularFile _ data) => data
              | _ => []
              end in
  let got := take n (drop (file_pos f) data) in
  log (EvRead (file_path f) (file_pos f) n got);;
  ret (got, mkFile (file_path f) (file_pos f + length got)).

(** ** The enumerations' constructors: [Problem(key)] *)

Definition Problem_of_value (key : Z) : M Problem :=
  if decide (key = 1) then ret NONE
  else if decide (key = 2) then ret NOT_A_FILE
  else if decide (key = 3) then ret WRONG_EXTENSION
  else if decide (key = 4) then ret WRONG_FORMAT
  else raise ValueError.

(** ** [ArchiveCompatibilityChecker.__init__] *)

Definition __init__ : ArchiveCompatibilityChecker :=
  let descriptions : gmap Z Description :=
    <[ProblemEnum.value WRONG_FORMAT :=
        mkDescription
          "Incompatible archive formats detected"
          "The following archives are using the wrong format. They probably need to be repacked for the current game:{}"]>
    (<[ProblemEnum.value WRONG_EXTENSION :=
        mkDescription
          "Incompatible archive extensions detected"
          "The following archives are using an extension meant for a different game:{}"]>
    (<[ProblemEnum.value NOT_A_FILE :=
        mkDescription
          "Invalid archive file detected"
          "The following archives are not valid files:{}"]> ∅)) in
  let supportedGames : gset string :=
    {[ "Morrowind"; "Oblivion"; "Fallout 3"; "New Vegas"; "Skyrim";
       "Fallout 4"; "Skyrim Special Edition"; "Skyrim VR"; "Fallout 4 VR" ]} in
  let gameToExt : gmap string string :=
    <["Fallout 4 VR" := ".ba2"]>
    (<["Fallout 4" := ".ba2"]>
    (gset_to_gmap ".bsa" supportedGames)) in
  let gameToFmt : gmap string FileFormat :=
    <["Fallout 4 VR" := FO4]>
    (<["Skyrim VR" := SSE]>
    (<["Skyrim Special Edition" := SSE]>
    (<["Fallout 4" := FO4]>
    (<["Skyrim" := FO3]>
    (<["New Vegas" := FO3]>
    (<["Fallout 3" := FO3]>
    (<["Oblivion" := TES4]>
    (<["Morrowind" := TES3]>
    (gset_to_gmap UNKNOWN supportedGames))))))))) in
  let magics : gmap Z FileFormat :=
    <[0x58445442 := FO4]> (<[0x00415342 := TES4]> (<[0x100 := TES3]> ∅)) in
  let tes4Versions : gmap Z FileFormat :=
    <[105 := SSE]> (<[104 := FO3]> (<[103 := TES4]> ∅)) in
  mkChecker None [] descriptions supportedGames gameToExt gameToFmt
            magics tes4Versions.

Definition createPlugin : ArchiveCompatibilityChecker := __init__.

(** ** Methods *)

Definition set_organizer (o : option IOrganizer) (c : ArchiveCompatibilityChecker) :=
  mkChecker o (__archives c) (__descriptions c) (__supportedGames c)
            (__gameToExt c) (__gameToFmt c) (__magics c) (__tes4Versions c).

Definition set_archives (a : list ProblemArchive) (c : ArchiveCompatibilityChecker) :=
  mkChecker (__organizer c) a (__descriptions c) (__supportedGames c)
            (__gameToExt c) (__gameToFmt c) (__magics c) (__tes4Versions c).

Definition init (organizer : IOrganizer) : M bool :=
  modify (λ s, mkState (set_organizer (Some organizer) (self s)) (fs s) (trace s));;
  ret true.

(** [self.__organizer], about to receive a method call. *)
Definition the_organizer : M IOrganizer :=
  o ← gets (λ s, __organizer (self s));
  match o with
  | Some org => ret org
  | None => raise AttributeError
  end.

Definition __getCurrentGame : M string :=
  org ← the_organizer;
  ret (gameName org).

Definition __getFileFormat (path : string) : M FileFormat :=
  st_size ← path_stat path;
  if st_size <? 4 then ret UNKNOWN
  else
    file ← path_open path "rb";
    r ← file_read file 4;
    magic ← u32_unpack r.1;
    magics ← gets (λ s, __magics (self s));
    let fmt := dict_get magics magic UNKNOWN in
    if decide (fmt = TES4) then
      if st_size <? 8 then ret UNKNOWN
      else
        r' ← file_read r.2 4;
        version ← u32_unpack r'.1;
        tes4Versions ← gets (λ s, __tes4Versions (self s));
        ret (dict_get tes4Versions version UNKNOWN)
    else ret fmt.

Definition __validateArchive (path : string) : M Problem :=
  is_file ← path_is_file path;
  if negb is_file then ret NOT_A_FILE
  else
    gameToExt ← gets (λ s, __gameToExt (self s));
    game ← __getCurrentGame;
    ext ← getitem gameToExt game;
    if negb (String.eqb (path_suffix path) ext) then ret WRONG_EXTENSION
    else
      fmt ← __getFileFormat path;
      gameToFmt ← gets (λ s, __gameToFmt (self s));
      game ← __getCurrentGame;
      expected ← getitem gameToFmt game;
      if decide (fmt ≠ expected) then ret WRONG_FORMAT
      else ret NONE.

(** The body of the [for] loop of [__listBadArchives], run to exhaustion by
    [list(...)]: the yielded values, in order. *)
Fixpoint listBadArchives_loop (files : list string) : M (list ProblemArchive) :=
  match files with
  | [] => ret []
  | file :: rest =>
      problem ← __validateArchive file;
      yielded ← listBadArchives_loop rest;
      ret (if decide (problem ≠ NONE)
           then mkProblemArchive file problem :: yielded
           else yielded)
  end.

Definition __listBadArchives : M (list ProblemArchive) :=
  org ← the_organizer;
  listBadArchives_loop (findFiles org "" "*.b[sa][a2]").

Definition activeProblems : M (list Z) :=
  bad ← __listBadArchives;
  modify (λ s, mkState (set_archives bad (self s)) (fs s) (trace s));;
  archives ← gets (λ s, __archives (self s));
  ret (elements
         (list_to_set ((λ x, ProblemEnum.value (problem x)) <$> archives) : gset Z)).

Definition hasGuidedFix (key : Z) : M bool :=
  problem ← Problem_of_value key;
  if decide (problem ≠ NONE) then ret false
  else raise IndexError.

Definition shortDescription (key : Z) : M string :=
  problem ← Problem_of_value key;
  descriptions ← gets (λ s, __descriptions (self s));
  match descriptions !! ProblemEnum.value problem with
  | Some d => ret (short d)
  | None => raise IndexError
  end.

Definition startGuidedFix (key : Z) : M unit := raise ValueError.

(** ** The remaining methods of the plugin interface *)

Definition author : M string := mret "Ryan McKenzie".

Definition description : M string :=
  mret "Checks archives (.bsa/.ba2 files) to verify they are compatible with the current game.".

Definition name : M string := mret "Archive Compatibility Checker".

(** [mobase.PluginSetting]: the plugin declares none. *)
Inductive PluginSetting := .

Definition settings : M (list PluginSetting) := mret [].

(** [mobase.VersionInfo(1, 0, 0, mobase.ReleaseType.prealpha)] *)
Inductive ReleaseType := prealpha.

Definition version : M (Z * Z * Z * ReleaseType) := mret (1, 0, 0, prealpha).

(** [template.format(arg)] for a template with a single ["{}"] field. *)
Fixpoint str_format (template arg : string) : string :=
  match template with
  | EmptyString => EmptyString
  | String c rest =>
      match rest with
      | String c' rest' =>
          if Ascii.eqb c "{"%char && Ascii.eqb c' "}"%char
          then (arg +:+ rest')%string
          else String c (str_format rest arg)
      | EmptyString => String c EmptyString
      end
  end.

Definition fullDescription (key : Z) : M string :=
  wanted ← Problem_of_value key;
  descriptions ← gets (λ s, __descriptions (self s));
  match descriptions !! ProblemEnum.value wanted with
  | Some d =>
      archives ← gets (λ s, __archives (self s));
      let names :=
        (λ x, path_name (path x))
          <$> filter (λ x, problem x = wanted) archives in
      ret (str_format (long d)
             ("<br><br>•  " +:+ String.concat "<br>•  " names)%string)
  | None => raise IndexError
  end.

(** ** Running the plugin on concrete inputs *)

Definition bytes_of (l : list Z) : list byte :=
  omap (λ z, Byte.of_N (Z.to_N z)) l.

Definition file_of (l : list Z) : node :=
  RegularFile (Z.of_nat (length (bytes_of l))) (bytes_of l).

Definition host (game : string) (files : list string) : IOrganizer :=
  mkOrganizer game (λ _ _, files).

Definition start (game : string) (files : list string)
    (fs : gmap string node) : state :=
  mkState (set_organizer (Some (host game files)) createPlugin) fs [].

(** "BSA\0", version 104; "BTDX"; Morrowind's 0x100; a 6-byte "BSA\0" stub *)
Definition bsa104 : node := file_of [0x42; 0x53; 0x41; 0x00; 104; 0; 0; 0; 36; 0; 0; 0].

Definition ba2 : node := file_of [0x42; 0x54; 0x44; 0x58; 1; 0; 0; 0; 0x47; 0x4e; 0x52; 0x4c].

Definition tes3 : node := file_of [0x00; 0x01; 0x00; 0x00; 7; 0; 0; 0].

Definition stub : node := file_of [0x42; 0x53; 0x41; 0x00; 104; 0].

Definition demo_fs : gmap string node :=
  <["Data/a.bsa" := bsa104]>
  (<["Data/b.ba2" := ba2]>
  (<["Data/c.bsa" := tes3]>
  (<["Data/d.bsa" := stub]>
  (<["Data/e.bsa" := Directory 4096]> ∅)))).

Definition demo_files : list string :=
  ["Data/a.bsa"; "Data/b.ba2"; "Data/c.bsa"; "Data/d.bsa"; "Data/e.bsa"; "Data/f.bsa"].

(** * Part II: the vocabulary of the properties *)

(** ** Observers

    A computation is an observer when it leaves the plugin object and the
    file system as they are and only appends to the access log, and when
    what it returns and what it appends do not depend on the log so far. *)

Definition result {A} (m : M A) (c : ArchiveCompatibilityChecker)
    (f : gmap string node) : outcome A :=
  (m (mkState c f [])).1.

Definition events {A} (m : M A) (c : ArchiveCompatibilityChecker)
    (f : gmap string node) : list event :=
  trace (m (mkState c f [])).2.

Definition observer {A} (m : M A) : Prop :=
  ∀ c f t, m (mkState c f t) = (result m c f, mkState c f (t ++ events m c f)).

Definition continue {A B} (o : outcome A) (k : A → M B) : M B :=
  match o with
  | Return a => k a
  | Raise e => raise e
  end.

(** ** What the sniffer does, as a function of the node its path names

    [sniff_result] and [sniff_events] spell out the outcome and the file
    accesses of [__getFileFormat] case by case; [getFileFormat_run] ties
    them to the method. *)

Definition node_size (n : node) : Z :=
  match n with
  | RegularFile st_size _ => st_size
  | Directory st_size => st_size
  end.

Definition sniff_result (magics versions : gmap Z FileFormat)
    (n : option node) : outcome FileFormat :=
  match n with
  | None => Raise FileNotFoundError
  | Some (Directory st_size) =>
      if st_size <? 4 then Return UNKNOWN else Raise PermissionError
  | Some (RegularFile st_size data) =>
      if st_size <? 4 then Return UNKNOWN
      else match take 4 data with
           | [b0; b1; b2; b3] =>
               let fmt := dict_get magics (le32 b0 b1 b2 b3) UNKNOWN in
               if decide (fmt = TES4) then
                 if st_size <? 8 then Return UNKNOWN
                 else match take 4 (drop 4 data) with
                      | [v0; v1; v2; v3] =>
                          Return (dict_get versions (le32 v0 v1 v2 v3) UNKNOWN)
                      | _ => Raise StructError
                      end
               else Return fmt
           | _ => Raise StructError
           end
  end.

Definition sniff_events (magics : gmap Z FileFormat) (p : string)
    (n : option node) : list event :=
  match n with
  | None => [EvStat p]
  | Some (Directory st_size) =>
      if st_size <? 4 then [EvStat p] else [EvStat p; EvOpen p "rb"]
  | Some (RegularFile st_size data) =>
      if st_size <? 4 then [EvStat p]
      else
        [EvStat p; EvOpen p "rb"; EvRead p 0 4 (take 4 data)] ++
        match take 4 data with
        | [b0; b1; b2; b3] =>
            if decide (dict_get magics (le32 b0 b1 b2 b3) UNKNOWN = TES4) then
              if st_size <? 8 then []
              else [EvRead p 4 4 (take 4 (drop 4 data))]
            else []
        | _ => []
        end
  end.

(** ** The static tables *)

(** The tables are built once by [__init__] and no method assigns them. *)
Definition static_tables (c : ArchiveCompatibilityChecker) : Prop :=
  __supportedGames c = __supportedGames __init__
  ∧ __gameToExt c = __gameToExt __init__
  ∧ __gameToFmt c = __gameToFmt __init__
  ∧ __magics c = __magics __init__
  ∧ __tes4Versions c = __tes4Versions __init__.

(** The two lookup tables written out as case distinctions; [magics_get]
    and [tes4Versions_get] show that the dicts built by [__init__] compute
    them. *)
Definition magic_table (magic : Z) : FileFormat :=
  if decide (magic = 0x100) then TES3
  else if decide (magic = 0x00415342) then TES4
  else if decide (magic = 0x58445442) then FO4
  else UNKNOWN.

Definition version_table (version : Z) : FileFormat :=
  if decide (version = 103) then TES4
  else if decide (version = 104) then FO3
  else if decide (version = 105) then SSE
  else UNKNOWN.

(** ** Access logs *)

(** The state a run leaves behind when it only logs [evs]. *)
Definition logged (s : state) (evs : list event) : state :=
  mkState (self s) (fs s) (trace s ++ evs).

(** Bytes asked for, and bytes delivered, by the reads of a log. *)
Fixpoint bytes_requested (evs : list event) : nat :=
  match evs with
  | [] => 0
  | EvRead _ _ count _ :: evs' => count + bytes_requested evs'
  | _ :: evs' => bytes_requested evs'
  end.

Fixpoint bytes_read (evs : list event) : nat :=
  match evs with
  | [] => 0
  | EvRead _ _ _ got :: evs' => length got + bytes_read evs'
  | _ :: evs' => bytes_read evs'
  end.

(** Every read of the log starts where the previous one stopped, the first
    one at [pos]: no seeking, no byte delivered twice. *)
Fixpoint forward_pass (pos : nat) (evs : list event) : Prop :=
  match evs with
  | [] => True
  | EvRead _ offset _ got :: evs' =>
      offset = pos ∧ forward_pass (pos + length got) evs'
  | _ :: evs' => forward_pass pos evs'
  end.

(** Calls of the sniffer in a log: [stat] is its first action and nothing
    else in the plugin calls it. *)
Fixpoint sniffer_calls (evs : list event) : nat :=
  match evs with
  | [] => 0
  | EvStat _ :: evs' => S (sniffer_calls evs')
  | _ :: evs' => sniffer_calls evs'
  end.

(** The reads of the sniffer on a regular file whose size is what [stat]
    says: each one asks for four bytes inside the file and gets them. *)
Definition full_read (data : list byte) (e : event) : Prop :=
  match e with
  | EvRead _ offset count got =>
      count = 4%nat ∧ length got = count
      ∧ (offset + count ≤ length data)%nat
      ∧ got = take count (drop offset data)
  | _ => True
  end.

(** ** Validation and the scan *)

Definition is_regular (n : option node) : bool :=
  match n with
  | Some (RegularFile _ _) => true
  | _ => false
  end.

(** The verdict once the sniffer has answered. *)
Definition verdict (expected : FileFormat) (o : outcome FileFormat) : outcome Problem :=
  match o with
  | Return fmt => Return (if decide (fmt ≠ expected) then WRONG_FORMAT else NONE)
  | Raise e => Raise e
  end.

(** What the loop yields for one enumerated file. *)
Definition bad_archive (c : ArchiveCompatibilityChecker)
    (f : gmap string node) (file : string) : option ProblemArchive :=
  match result (__validateArchive file) c f with
  | Return problem =>
      if decide (problem ≠ NONE) then Some (mkProblemArchive file problem)
      else None
  | Raise _ => None
  end.

Definition problem_values (archives : list ProblemArchive) : list Z :=
  elements
    (list_to_set ((λ x, ProblemEnum.value (problem x)) <$> archives) : gset Z).

(** File accesses that cannot change a file. *)
Definition read_only_event (e : event) : Prop :=
  match e with
  | EvIsFile _ | EvStat _ => True
  | EvOpen _ mode => mode = "rb"
  | EvRead _ _ count got => count = 4%nat ∧ (length got ≤ 4)%nat
  end.

Definition read_only_log (evs : list event) : Prop :=
  Forall read_only_event evs
  ∧ (bytes_requested evs ≤ 8 * sniffer_calls evs)%nat.

(** ** Frame *)

(** A method leaves files alone when it returns the file system it was
    given and logs only read-only accesses, at most eight requested bytes
    per sniffer call. *)
Definition leaves_files_alone {A} (m : M A) : Prop :=
  ∀ s, fs (m s).2 = fs s
       ∧ ∃ evs, trace (m s).2 = trace s ++ evs ∧ read_only_log evs.

Definition silent {A} (m : M A) : Prop :=
  ∀ s, fs (m s).2 = fs s ∧ trace (m s).2 = trace s.

(** ** Byte signatures

    [u32_pack] is [struct.Struct("<I").pack], the inverse of the decoding
    the sniffer uses; the signature of a format is what the magic and
    version constants of [__init__] look like in a file. *)

Definition byte_of (z : Z) : byte := default x00 (Byte.of_N (Z.to_N z)).

Definition u32_pack (z : Z) : list byte :=
  [byte_of (z mod 256); byte_of (z / 256 mod 256);
   byte_of (z / 65536 mod 256); byte_of (z / 16777216 mod 256)].

Definition signature (fmt : FileFormat) : option (list byte) :=
  match fmt with
  | UNKNOWN => None
  | TES3 => Some (u32_pack 0x100)
  | TES4 => Some (u32_pack 0x00415342 ++ u32_pack 103)
  | FO3 => Some (u32_pack 0x00415342 ++ u32_pack 104)
  | SSE => Some (u32_pack 0x00415342 ++ u32_pack 105)
  | FO4 => Some (u32_pack 0x58445442)
  end.

Definition starts_with (sig data : list byte) : Prop :=
  take (length sig) data = sig.

(** The format of a file as a function of its content alone. *)
Definition classify (data : list byte) : FileFormat :=
  match data with
  | b0 :: b1 :: b2 :: b3 :: rest =>
      let fmt := magic_table (le32 b0 b1 b2 b3) in
      if decide (fmt = TES4) then
        match rest with
        | v0 :: v1 :: v2 :: v3 :: _ => version_table (le32 v0 v1 v2 v3)
        | _ => UNKNOWN
        end
      else fmt
  | _ => UNKNOWN
  end.

(** ** Configuration

    A plugin object is configured when every field that [__init__] fills
    with a constant still holds that constant. *)

Definition configured (c : ArchiveCompatibilityChecker) : Prop :=
  static_tables c ∧ __descriptions c = __descriptions __init__.

(** Two plugin objects that differ at most in [__archives]. *)
Definition same_config (c c' : ArchiveCompatibilityChecker) : Prop :=
  __organizer c = __organizer c'
  ∧ __gameToExt c = __gameToExt c'
  ∧ __gameToFmt c = __gameToFmt c'
  ∧ __magics c = __magics c'
  ∧ __tes4Versions c = __tes4Versions c'.

Definition ignores_archives {A} (m : M A) : Prop :=
  ∀ c c' f, same_config c c' →
    result m c f = result m c' f ∧ events m c f = events m c' f.

(** Observers whose answers do not depend on [__archives]. *)
Definition steady {A} (m : M A) : Prop := observer m ∧ ignores_archives m.

(** ** Sequences of calls

    What the host may do with a plugin object: any sequence of calls of its
    public methods.  An exception ends the call, not the sequence. *)

Inductive call :=
| CallInit (organizer : IOrganizer)
| CallActiveProblems
| CallShortDescription (key : Z)
| CallFullDescription (key : Z)
| CallHasGuidedFix (key : Z)
| CallStartGuidedFix (key : Z).

Definition run_call (k : call) (s : state) : state :=
  match k with
  | CallInit organizer => (init organizer s).2
  | CallActiveProblems => (activeProblems s).2
  | CallShortDescription key => (shortDescription key s).2
  | CallFullDescription key => (fullDescription key s).2
  | CallHasGuidedFix key => (hasGuidedFix key s).2
  | CallStartGuidedFix key => (startGuidedFix key s).2
  end.

Definition run_calls (ks : list call) (s : state) : state :=
  foldl (λ s k, run_call k s) s ks.

(** * Part III: properties *)

(** ** The plugin on concrete inputs *)

Example sniff_bsa104 :
  (__getFileFormat "Data/a.bsa" (start "Skyrim" demo_files demo_fs)).1 = Return FO3.
Proof. vm_compute. reflexivity. Qed.

Example sniff_ba2 :
  (__getFileFormat "Data/b.ba2" (start "Skyrim" demo_files demo_fs)).1 = Return FO4.
Proof. vm_compute. reflexivity. Qed.

Example sniff_tes3 :
  (__getFileFormat "Data/c.bsa" (start "Skyrim" demo_files demo_fs)).1 = Return TES3.
Proof. vm_compute. reflexivity. Qed.

Example sniff_stub :
  (__getFileFormat "Data/d.bsa" (start "Skyrim" demo_files demo_fs)).1 = Return UNKNOWN.
Proof. vm_compute. reflexivity. Qed.

Example suffix_demo :
  path_suffix "Data/a.bsa" = ".bsa" ∧ path_suffix "mods/x.y/b.ba2" = ".ba2"
  ∧ path_suffix "Data/.bsa" = "" ∧ path_suffix "Data/a." = ""
  ∧ path_suffix "Data/a.tar.BSA" = ".BSA".
Proof. vm_compute. repeat split; reflexivity. Qed.

Example scan_demo :
  let r := activeProblems (start "Skyrim" demo_files demo_fs) in
  r.1 = Return [3; 4; 2]
  ∧ __archives (self r.2) =
      [mkProblemArchive "Data/b.ba2" WRONG_EXTENSION;
       mkProblemArchive "Data/c.bsa" WRONG_FORMAT;
       mkProblemArchive "Data/d.bsa" WRONG_FORMAT;
       mkProblemArchive "Data/e.bsa" NOT_A_FILE;
       mkProblemArchive "Data/f.bsa" NOT_A_FILE].
Proof. vm_compute. split; reflexivity. Qed.

(** ** Observers compose *)

Section Observers.
Context {A B : Type}.
Implicit Types (m : M A) (k : A → M B).

Lemma observer_ret (a : A) : observer (mret a).
Proof. intros c f t. cbn. unfold ret. by rewrite app_nil_r. Qed.

Lemma observer_raise (e : exn) : observer (@raise A e).
Proof. intros c f t. cbn. unfold raise. by rewrite app_nil_r. Qed.

Lemma observer_gets_self (g : ArchiveCompatibilityChecker → A) :
  observer (gets (λ s, g (self s))).
Proof. intros c f t. cbn. unfold gets. by rewrite app_nil_r. Qed.

Lemma observer_gets_fs (g : gmap string node → A) :
  observer (gets (λ s, g (fs s))).
Proof. intros c f t. cbn. unfold gets. by rewrite app_nil_r. Qed.

Lemma bind_run m k c f t :
  observer m →
  (m ≫= k) (mkState c f t) =
  continue (result m c f) k (mkState c f (t ++ events m c f)).
Proof.
  intros Hm. unfold mbind, M_bind, bind. rewrite Hm.
  by destruct (result m c f).
Qed.

Lemma result_bind m k c f :
  observer m → (∀ a, observer (k a)) →
  result (m ≫= k) c f =
  match result m c f with
  | Return a => result (k a) c f
  | Raise e => Raise e
  end.
Proof.
  intros Hm Hk. unfold result at 1. rewrite bind_run by done.
  destruct (result m c f) as [a|e]; cbn; [|done].
  by rewrite Hk.
Qed.

Lemma events_bind m k c f :
  observer m → (∀ a, observer (k a)) →
  events (m ≫= k) c f =
  events m c f ++
  match result m c f with
  | Return a => events (k a) c f
  | Raise e => []
  end.
Proof.
  intros Hm Hk. unfold events at 1. rewrite bind_run by done.
  destruct (result m c f) as [a|e]; cbn; [|by rewrite app_nil_r].
  by rewrite Hk.
Qed.

Lemma observer_bind m k :
  observer m → (∀ a, observer (k a)) → observer (m ≫= k).
Proof.
  intros Hm Hk c f t.
  rewrite result_bind, events_bind, bind_run by done.
  destruct (result m c f) as [a|e]; cbn.
  - by rewrite Hk, app_assoc.
  - unfold raise. by rewrite app_nil_r.
Qed.
End Observers.

Lemma observer_log (e : event) : observer (log e).
Proof. by intros c f t. Qed.

Lemma observer_getitem {K V} `{Countable K} (d : gmap K V) (k : K) :
  observer (getitem d k).
Proof.
  unfold getitem. destruct (d !! k); [apply observer_ret | apply observer_raise].
Qed.

Lemma observer_u32_unpack buf : observer (u32_unpack buf).
Proof.
  unfold u32_unpack.
  repeat (destruct buf as [|? buf]; try apply observer_raise).
  apply observer_ret.
Qed.

Lemma observer_path_is_file p : observer (path_is_file p).
Proof.
  apply observer_bind; [apply observer_log|intros _].
  apply observer_bind; [apply (observer_gets_fs id)|intros f'].
  apply observer_ret.
Qed.

Lemma observer_path_stat p : observer (path_stat p).
Proof.
  apply observer_bind; [apply observer_log|intros _].
  apply observer_bind; [apply (observer_gets_fs id)|intros f'].
  destruct (f' !! p) as [[]|]; first [apply observer_ret | apply observer_raise].
Qed.

(** Opening for reading is an observer; opening with ["wb"] is not. *)
Lemma observer_path_open_rb p : observer (path_open p "rb").
Proof.
  apply observer_bind; [apply observer_log|intros _].
  apply observer_bind; [apply (observer_gets_fs id)|intros f'].
  destruct (f' !! p) as [[]|]; cbn; try apply observer_raise.
  apply observer_bind; [apply observer_ret|intros _; apply observer_ret].
Qed.

Example path_open_wb_truncates :
  fs (path_open "Data/a.bsa" "wb" (start "Skyrim" demo_files demo_fs)).2 !! "Data/a.bsa"
  = Some (RegularFile 0 []).
Proof. vm_compute. reflexivity. Qed.

Lemma observer_file_read h n : observer (file_read h n).
Proof.
  apply observer_bind; [apply (observer_gets_fs id)|intros f'].
  apply observer_bind; [apply observer_log|intros _].
  apply observer_ret.
Qed.

Lemma observer_the_organizer : observer the_organizer.
Proof.
  apply observer_bind; [apply (observer_gets_self __organizer)|intros [o|]].
  - apply observer_ret.
  - apply observer_raise.
Qed.

Lemma observer_getCurrentGame : observer __getCurrentGame.
Proof.
  apply observer_bind; [apply observer_the_organizer|intros o; apply observer_ret].
Qed.

Lemma observer_getFileFormat p : observer (__getFileFormat p).
Proof.
  apply observer_bind; [apply observer_path_stat|intros st_size].
  destruct (st_size <? 4); [apply observer_ret|].
  apply observer_bind; [apply observer_path_open_rb|intros h].
  apply observer_bind; [apply observer_file_read|intros r].
  apply observer_bind; [apply observer_u32_unpack|intros magic].
  apply observer_bind; [apply (observer_gets_self __magics)|intros magics].
  cbn zeta. destruct (decide _); [|apply observer_ret].
  destruct (st_size <? 8); [apply observer_ret|].
  apply observer_bind; [apply observer_file_read|intros r'].
  apply observer_bind; [apply observer_u32_unpack|intros version].
  apply observer_bind; [apply (observer_gets_self __tes4Versions)|intros versions].
  apply observer_ret.
Qed.

Lemma observer_validateArchive p : observer (__validateArchive p).
Proof.
  apply observer_bind; [apply observer_path_is_file|intros is_file].
  destruct (negb is_file); [apply observer_ret|].
  apply observer_bind; [apply (observer_gets_self __gameToExt)|intros gameToExt].
  apply observer_bind; [apply observer_getCurrentGame|intros game].
  apply observer_bind; [apply observer_getitem|intros ext].
  destruct (negb _); [apply observer_ret|].
  apply observer_bind; [apply observer_getFileFormat|intros fmt].
  apply observer_bind; [apply (observer_gets_self __gameToFmt)|intros gameToFmt].
  apply observer_bind; [apply observer_getCurrentGame|intros game'].
  apply observer_bind; [apply observer_getitem|intros expected].
  destruct (decide _); apply observer_ret.
Qed.

Lemma observer_listBadArchives_loop files : observer (listBadArchives_loop files).
Proof.
  induction files as [|file rest IH]; [apply observer_ret|].
  apply observer_bind; [apply observer_validateArchive|intros problem].
  apply observer_bind; [apply IH|intros yielded; apply observer_ret].
Qed.

Lemma observer_listBadArchives : observer __listBadArchives.
Proof.
  apply observer_bind; [apply observer_the_organizer|intros org].
  apply observer_listBadArchives_loop.
Qed.

(** ** The sniffer, case by case *)

Lemma getFileFormat_at_nil p c f :
  __getFileFormat p (mkState c f []) =
  (sniff_result (__magics c) (__tes4Versions c) (f !! p),
   mkState c f (sniff_events (__magics c) p (f !! p))).
Proof.
  unfold __getFileFormat, sniff_result, sniff_events.
  unfold path_stat, path_open, file_read, u32_unpack, log, modify, gets.
  unfold mbind, M_bind, bind, mret, M_ret, ret, raise. cbn.
  destruct (f !! p) as [[st_size data|st_size]|] eqn:Hf; cbn; [| |done].
  - destruct (st_size <? 4); [done|].
    destruct data as [|b0 [|b1 [|b2 [|b3 rest]]]];
      repeat (cbn; rewrite ?Hf, ?take_0); try done.
    destruct (decide _); [|done].
    destruct (st_size <? 8); [done|].
    destruct rest as [|v0 [|v1 [|v2 [|v3 rest']]]];
      repeat (cbn; rewrite ?Hf, ?take_0); done.
  - destruct (st_size <? 4); [done|]. cbn. by rewrite !Hf.
Qed.

Lemma getFileFormat_result p c f :
  result (__getFileFormat p) c f =
  sniff_result (__magics c) (__tes4Versions c) (f !! p).
Proof. unfold result. by rewrite getFileFormat_at_nil. Qed.

Lemma getFileFormat_events p c f :
  events (__getFileFormat p) c f = sniff_events (__magics c) p (f !! p).
Proof. unfold events. by rewrite getFileFormat_at_nil. Qed.

Lemma getFileFormat_run p s :
  __getFileFormat p s =
  (sniff_result (__magics (self s)) (__tes4Versions (self s)) (fs s !! p),
   mkState (self s) (fs s)
           (trace s ++ sniff_events (__magics (self s)) p (fs s !! p))).
Proof.
  destruct s as [c f t]. cbn.
  by rewrite observer_getFileFormat, getFileFormat_result, getFileFormat_events.
Qed.

(** ** The static tables *)

Lemma static_tables_init : static_tables __init__.
Proof. by repeat split. Qed.

Lemma static_tables_set_organizer o c :
  static_tables c → static_tables (set_organizer o c).
Proof. by intros (?&?&?&?&?). Qed.

Lemma static_tables_set_archives a c :
  static_tables c → static_tables (set_archives a c).
Proof. by intros (?&?&?&?&?). Qed.

Lemma magics_get magic :
  dict_get (__magics __init__) magic UNKNOWN = magic_table magic.
Proof.
  unfold dict_get, magic_table. cbn.
  rewrite !lookup_insert, lookup_empty.
  repeat case_decide; subst; done.
Qed.

Lemma tes4Versions_get version :
  dict_get (__tes4Versions __init__) version UNKNOWN = version_table version.
Proof.
  unfold dict_get, version_table. cbn.
  rewrite !lookup_insert, lookup_empty.
  repeat case_decide; subst; done.
Qed.

Lemma magics_get_TES4 magic :
  dict_get (__magics __init__) magic UNKNOWN = TES4 ↔ magic = 0x00415342.
Proof.
  rewrite magics_get. unfold magic_table.
  repeat case_decide; subst; split; done.
Qed.

Lemma gameToExt_dom : dom (__gameToExt __init__) = __supportedGames __init__.
Proof. cbn. rewrite !dom_insert_L, dom_gset_to_gmap. set_solver. Qed.

Lemma gameToFmt_dom : dom (__gameToFmt __init__) = __supportedGames __init__.
Proof. cbn. rewrite !dom_insert_L, dom_gset_to_gmap. set_solver. Qed.

Lemma supported_game_ext c game :
  static_tables c → game ∈ __supportedGames c →
  ∃ ext, __gameToExt c !! game = Some ext.
Proof.
  intros (Hs&->&_) Hin. rewrite Hs, <- gameToExt_dom in Hin.
  by apply elem_of_dom in Hin.
Qed.

Lemma supported_game_fmt c game :
  static_tables c → game ∈ __supportedGames c →
  ∃ expected, __gameToFmt c !! game = Some expected.
Proof.
  intros (Hs&_&->&_) Hin. rewrite Hs, <- gameToFmt_dom in Hin.
  by apply elem_of_dom in Hin.
Qed.

(** ** Little-endian decoding *)

Lemma byte_val_range b : 0 ≤ byte_val b < 256.
Proof.
  unfold byte_val. pose proof (Byte.to_N_bounded b). lia.
Qed.

Lemma lor_shiftl_add a b k :
  0 ≤ k → 0 ≤ a < 2 ^ k → 0 ≤ b →
  Z.lor a (Z.shiftl b k) = a + b * 2 ^ k.
Proof.
  intros Hk Ha Hb.
  assert (Z.land a (Z.shiftl b k) = 0) as Hland.
  { apply Z.bits_inj'. intros n Hn.
    rewrite Z.land_spec, Z.bits_0.
    destruct (Z.lt_ge_cases n k) as [Hlt|Hge].
    - rewrite Z.shiftl_spec_low by done. apply andb_false_r.
    - destruct (decide (a = 0)) as [->|Hne]; [by rewrite Z.bits_0|].
      rewrite (Z.bits_above_log2 a n); [done|lia|].
      assert (2 ^ k ≤ 2 ^ n) by (apply Z.pow_le_mono_r; lia).
      apply Z.log2_lt_pow2; lia. }
  rewrite <- Z.lxor_lor by done.
  rewrite <- Z.add_nocarry_lxor by done.
  by rewrite Z.shiftl_mul_pow2.
Qed.

Lemma le32_value b0 b1 b2 b3 :
  le32 b0 b1 b2 b3 =
  byte_val b0 + 256 * byte_val b1 + 65536 * byte_val b2
  + 16777216 * byte_val b3.
Proof.
  pose proof (byte_val_range b0). pose proof (byte_val_range b1).
  pose proof (byte_val_range b2). pose proof (byte_val_range b3).
  unfold le32.
  rewrite (lor_shiftl_add (byte_val b0) (byte_val b1) 8);
    [|lia|change (2 ^ 8) with 256; lia|lia].
  rewrite (lor_shiftl_add _ (byte_val b2) 16);
    [|lia|change (2 ^ 8) with 256; change (2 ^ 16) with 65536; lia|lia].
  rewrite (lor_shiftl_add _ (byte_val b3) 24);
    [|lia|change (2 ^ 8) with 256; change (2 ^ 16) with 65536;
          change (2 ^ 24) with 16777216; lia|lia].
  change (2 ^ 8) with 256; change (2 ^ 16) with 65536;
    change (2 ^ 24) with 16777216; lia.
Qed.

Lemma le32_range b0 b1 b2 b3 : 0 ≤ le32 b0 b1 b2 b3 < 2 ^ 32.
Proof.
  pose proof (byte_val_range b0). pose proof (byte_val_range b1).
  pose proof (byte_val_range b2). pose proof (byte_val_range b3).
  rewrite le32_value. change (2 ^ 32) with 4294967296. lia.
Qed.

(** ** The format sniffer *)

Lemma sniff_static c p n :
  static_tables c →
  sniff_result (__magics c) (__tes4Versions c) n
  = sniff_result (__magics __init__) (__tes4Versions __init__) n
  ∧ sniff_events (__magics c) p n = sniff_events (__magics __init__) p n.
Proof. by intros (_&_&_&->&->). Qed.

(** C1: for every regular file whose size is what [stat] says, the sniffer
    decodes bytes 0..3 as a little-endian unsigned 32-bit magic and answers
    from the magic table (0x100 TES3, 0x00415342 the TES4 family,
    0x58445442 FO4, otherwise UNKNOWN); the version field, bytes 4..7
    decoded the same way, is read only when the magic is the TES4 family's,
    and is then answered from the version table (103 TES4, 104 FO3, 105 SSE,
    otherwise UNKNOWN).  A file too short to hold the field to decode is
    UNKNOWN, and that field is not read. *)
Theorem getFileFormat_decodes s p st_size data :
  static_tables (self s) →
  fs s !! p = Some (RegularFile st_size data) →
  st_size = Z.of_nat (length data) →
  match data with
  | b0 :: b1 :: b2 :: b3 :: rest =>
      let magic := le32 b0 b1 b2 b3 in
      let header := [EvStat p; EvOpen p "rb"; EvRead p 0 4 [b0; b1; b2; b3]] in
      magic = byte_val b0 + 256 * byte_val b1 + 65536 * byte_val b2
              + 16777216 * byte_val b3
      ∧ 0 ≤ magic < 2 ^ 32
      ∧ (magic ≠ 0x00415342 →
         __getFileFormat p s = (Return (magic_table magic), logged s header))
      ∧ (magic = 0x00415342 →
         match rest with
         | v0 :: v1 :: v2 :: v3 :: _ =>
             le32 v0 v1 v2 v3 = byte_val v0 + 256 * byte_val v1
                                + 65536 * byte_val v2 + 16777216 * byte_val v3
             ∧ __getFileFormat p s =
               (Return (version_table (le32 v0 v1 v2 v3)),
                logged s (header ++ [EvRead p 4 4 [v0; v1; v2; v3]]))
         | _ => __getFileFormat p s = (Return UNKNOWN, logged s header)
         end)
  | _ => __getFileFormat p s = (Return UNKNOWN, logged s [EvStat p])
  end.
Proof.
  intros Htab Hf Hsz.
  rewrite getFileFormat_run, Hf.
  destruct (sniff_static (self s) p (Some (RegularFile st_size data)) Htab)
    as [-> ->].
  unfold sniff_result, sniff_events, logged.
  destruct data as [|b0 [|b1 [|b2 [|b3 rest]]]]; cbn in Hsz.
  1-4: by assert ((st_size <? 4) = true) as -> by lia.
  assert ((st_size <? 4) = false) as -> by lia.
  split; [apply le32_value|].
  split; [apply le32_range|].
  cbn [take firstn]. rewrite take_0.
  split; intros Hmagic.
  - destruct (decide _) as [Heq|_].
    { by apply magics_get_TES4 in Heq. }
    by rewrite magics_get, app_nil_r.
  - destruct (decide _) as [_|Hne].
    2: { by destruct Hne; apply magics_get_TES4. }
    destruct rest as [|v0 [|v1 [|v2 [|v3 rest']]]]; cbn in Hsz.
    1-4: assert ((st_size <? 8) = true) as -> by lia; by rewrite app_nil_r.
    assert ((st_size <? 8) = false) as -> by lia.
    split; [apply le32_value|].
    cbn [drop skipn take firstn]. rewrite take_0.
    by rewrite tes4Versions_get.
Qed.

Lemma getFileFormat_decodes_witness :
  let s := start "Skyrim" demo_files demo_fs in
  __getFileFormat "Data/a.bsa" s =
  (Return FO3,
   logged s [EvStat "Data/a.bsa"; EvOpen "Data/a.bsa" "rb";
             EvRead "Data/a.bsa" 0 4 [x42; x53; x41; x00];
             EvRead "Data/a.bsa" 4 4 [x68; x00; x00; x00]]).
Proof.
  intros s.
  destruct (getFileFormat_decodes s "Data/a.bsa" 12
              [x42; x53; x41; x00; x68; x00; x00; x00; x24; x00; x00; x00])
    as (_ & _ & _ & H).
  - apply static_tables_set_organizer, static_tables_init.
  - vm_compute. reflexivity.
  - reflexivity.
  - exact (proj2 (H eq_refl)).
Defined.

Ltac forall_events :=
  cbn; repeat (apply Forall_cons_2); try apply Forall_nil_2;
  cbn; repeat split; try done; try lia.

Lemma sniff_consistent magics versions p st_size data :
  st_size = Z.of_nat (length data) →
  (∃ fmt, sniff_result magics versions (Some (RegularFile st_size data))
          = Return fmt)
  ∧ Forall (full_read data)
           (sniff_events magics p (Some (RegularFile st_size data))).
Proof.
  intros Hsz. unfold sniff_result, sniff_events.
  destruct (st_size <? 4) eqn:H4.
  { split; [by eexists|]. forall_events. }
  destruct data as [|b0 [|b1 [|b2 [|b3 rest]]]]; cbn in Hsz; try lia.
  cbn [take firstn]. rewrite take_0.
  destruct (decide _) as [_|_].
  2: { split; [by eexists|]. forall_events. }
  destruct (st_size <? 8) eqn:H8.
  { split; [by eexists|]. forall_events. }
  destruct rest as [|v0 [|v1 [|v2 [|v3 rest']]]]; cbn in Hsz; try lia.
  cbn [drop skipn take firstn]. rewrite take_0.
  split; [by eexists|]. forall_events.
Qed.

(** C8: the guards keep every read inside the file.  A file shorter than
    four bytes is UNKNOWN with no open and no read; a file with the TES4
    family's magic and fewer than eight bytes is UNKNOWN with the magic read
    only; and when [stat] reports the true size every read asks for four
    bytes that exist and receives exactly those, so that [unpack] never
    fails and the call returns. *)
Theorem getFileFormat_guards s p st_size data :
  fs s !! p = Some (RegularFile st_size data) →
  (st_size < 4 →
   __getFileFormat p s = (Return UNKNOWN, logged s [EvStat p]))
  ∧ (4 ≤ st_size < 8 → static_tables (self s) →
     ∀ b0 b1 b2 b3, take 4 data = [b0; b1; b2; b3] →
       le32 b0 b1 b2 b3 = 0x00415342 →
       __getFileFormat p s =
       (Return UNKNOWN,
        logged s [EvStat p; EvOpen p "rb"; EvRead p 0 4 [b0; b1; b2; b3]]))
  ∧ (st_size = Z.of_nat (length data) →
     ∃ fmt evs, __getFileFormat p s = (Return fmt, logged s evs)
                ∧ Forall (full_read data) evs).
Proof.
  intros Hf. rewrite getFileFormat_run, Hf. repeat split.
  - intros Hsz. unfold sniff_result, sniff_events.
    by assert ((st_size <? 4) = true) as -> by lia.
  - intros Hsz Htab b0 b1 b2 b3 Hdata Hmagic.
    destruct (sniff_static (self s) p (Some (RegularFile st_size data)) Htab)
      as [-> ->].
    unfold sniff_result, sniff_events. rewrite Hdata.
    assert ((st_size <? 4) = false) as -> by lia.
    assert ((st_size <? 8) = true) as -> by lia.
    destruct (decide _) as [_|Hne]; [done|].
    by destruct Hne; apply magics_get_TES4.
  - intros Hsz.
    destruct (sniff_consistent (__magics (self s)) (__tes4Versions (self s))
                p st_size data Hsz) as [[fmt Hfmt] Hreads].
    exists fmt. eexists. by rewrite Hfmt.
Qed.

Lemma getFileFormat_guards_witness :
  let s := start "Skyrim" demo_files demo_fs in
  __getFileFormat "Data/d.bsa" s =
  (Return UNKNOWN,
   logged s [EvStat "Data/d.bsa"; EvOpen "Data/d.bsa" "rb";
             EvRead "Data/d.bsa" 0 4 [x42; x53; x41; x00]]).
Proof.
  intros s.
  destruct (getFileFormat_guards s "Data/d.bsa" 6
              [x42; x53; x41; x00; x68; x00]) as (_ & H & _).
  - vm_compute. reflexivity.
  - apply (H ltac:(lia)
             (static_tables_set_organizer _ _ static_tables_init)
             x42 x53 x41 x00 eq_refl eq_refl).
Defined.

Lemma sniff_events_bound magics p n :
  (bytes_requested (sniff_events magics p n) ≤ 8)%nat
  ∧ (bytes_read (sniff_events magics p n) ≤ 8)%nat
  ∧ (sniffer_calls (sniff_events magics p n) = 1)%nat
  ∧ forward_pass 0 (sniff_events magics p n).
Proof.
  unfold sniff_events.
  destruct n as [[st_size data|st_size]|]; [| |cbn; repeat split; lia].
  2: { destruct (st_size <? 4); cbn; repeat split; lia. }
  destruct (st_size <? 4); [cbn; repeat split; lia|].
  assert (length (take 4 data) ≤ 4)%nat by (rewrite length_take; lia).
  assert (length (take 4 (drop 4 data)) ≤ 4)%nat by (rewrite length_take; lia).
  destruct (take 4 data) as [|b0 [|b1 [|b2 [|b3 [|b4 r]]]]] eqn:Hmagic;
    try (cbn in *; repeat split; lia).
  destruct (decide _); [|cbn; repeat split; lia].
  destruct (st_size <? 8); cbn; repeat split; lia.
Qed.

(** C3: a call of the sniffer asks for, and receives, at most eight bytes;
    more than four only for a file that starts with the TES4 family's
    magic; and on a regular file whose size is what [stat] says it returns
    a member of [FileFormat]. *)
Theorem getFileFormat_reads_at_most_8 s p :
  ∃ o evs,
    __getFileFormat p s = (o, logged s evs)
    ∧ (bytes_requested evs ≤ 8)%nat
    ∧ (bytes_read evs ≤ 8)%nat
    ∧ (static_tables (self s) → (4 < bytes_requested evs)%nat →
       ∃ st_size data b0 b1 b2 b3,
         fs s !! p = Some (RegularFile st_size data)
         ∧ take 4 data = [b0; b1; b2; b3]
         ∧ le32 b0 b1 b2 b3 = 0x00415342)
    ∧ (∀ st_size data,
         fs s !! p = Some (RegularFile st_size data) →
         st_size = Z.of_nat (length data) →
         ∃ fmt, o = Return fmt ∧ fmt ∈ FileFormatEnum.members).
Proof.
  rewrite getFileFormat_run. do 2 eexists. split; [done|].
  destruct (sniff_events_bound (__magics (self s)) p (fs s !! p))
    as (Hreq & Hgot & _).
  repeat split; [done|done| |].
  - intros Htab.
    destruct (sniff_static (self s) p (fs s !! p) Htab) as [_ ->].
    unfold sniff_events.
    destruct (fs s !! p) as [[st_size data|st_size]|]; [| |cbn; lia].
    2: { destruct (st_size <? 4); cbn; lia. }
    destruct (st_size <? 4); [cbn; lia|].
    destruct (take 4 data) as [|b0 [|b1 [|b2 [|b3 [|b4 r]]]]] eqn:Hmagic;
      try (cbn; lia).
    destruct (decide _) as [Heq|_]; [|cbn; lia].
    intros _. exists st_size, data, b0, b1, b2, b3.
    by apply magics_get_TES4 in Heq.
  - intros st_size data Hf Hsz. rewrite Hf.
    destruct (sniff_consistent (__magics (self s)) (__tes4Versions (self s))
                p st_size data Hsz) as [[fmt ->] _].
    exists fmt. split; [done|].
    unfold FileFormatEnum.members. destruct fmt; set_solver.
Qed.

Lemma getFileFormat_reads_at_most_8_witness :
  ∃ fmt, (__getFileFormat "Data/a.bsa" (start "Skyrim" demo_files demo_fs)).1
         = Return fmt
         ∧ fmt ∈ FileFormatEnum.members.
Proof.
  destruct (getFileFormat_reads_at_most_8
              (start "Skyrim" demo_files demo_fs) "Data/a.bsa")
    as (o & evs & Hrun & _ & _ & _ & Hret).
  rewrite Hrun.
  apply (Hret 12 [x42; x53; x41; x00; x68; x00; x00; x00; x24; x00; x00; x00]).
  - vm_compute. reflexivity.
  - reflexivity.
Defined.

Lemma sniff_result_first_8 magics versions st_size data :
  sniff_result magics versions (Some (RegularFile st_size data))
  = sniff_result magics versions (Some (RegularFile st_size (take 8 data))).
Proof.
  unfold sniff_result.
  rewrite (take_take data 4 8). change (4 `min` 8)%nat with 4%nat.
  rewrite (take_drop_commute (take 8 data) 4 4), (take_take data (4 + 4) 8).
  change ((4 + 4) `min` 8)%nat with (4 + 4)%nat.
  by rewrite <- take_drop_commute.
Qed.

(** C4: the sniffer is a pure function of the file's size and its first
    eight bytes (and of the two static tables): two files that agree on
    those get the same answer, whatever their paths, the rest of their
    contents and the rest of the state.  A call changes neither the plugin
    object nor the file system, only the access log; its reads go forward
    from offset 0, each starting where the previous one ended; and a second
    call on the same path answers as the first. *)
Theorem getFileFormat_pure_stateless :
  (∀ s1 s2 p1 p2 st_size d1 d2,
     __magics (self s1) = __magics (self s2) →
     __tes4Versions (self s1) = __tes4Versions (self s2) →
     fs s1 !! p1 = Some (RegularFile st_size d1) →
     fs s2 !! p2 = Some (RegularFile st_size d2) →
     take 8 d1 = take 8 d2 →
     (__getFileFormat p1 s1).1 = (__getFileFormat p2 s2).1)
  ∧ (∀ s p, ∃ evs,
       (__getFileFormat p s).2 = logged s evs
       ∧ self (__getFileFormat p s).2 = self s
       ∧ fs (__getFileFormat p s).2 = fs s
       ∧ forward_pass 0 evs)
  ∧ (∀ s p,
       (__getFileFormat p (__getFileFormat p s).2).1 = (__getFileFormat p s).1).
Proof.
  repeat split.
  - intros s1 s2 p1 p2 st_size d1 d2 Hm Hv Hf1 Hf2 Hd.
    rewrite !getFileFormat_run, Hf1, Hf2, Hm, Hv. cbn [fst].
    rewrite (sniff_result_first_8 _ _ st_size d1).
    rewrite (sniff_result_first_8 _ _ st_size d2).
    by rewrite Hd.
  - intros s p. rewrite getFileFormat_run. eexists. repeat split.
    apply sniff_events_bound.
  - intros s p. by rewrite !getFileFormat_run.
Qed.

Example same_header_same_format :
  let f1 := file_of [0x42; 0x53; 0x41; 0x00; 105; 0; 0; 0; 36; 0; 0; 0] in
  let f2 := file_of [0x42; 0x53; 0x41; 0x00; 105; 0; 0; 0; 99; 98; 97; 96] in
  (__getFileFormat "x.bsa" (start "Skyrim" [] {[ "x.bsa" := f1 ]})).1 = Return SSE
  ∧ (__getFileFormat "y.bsa" (start "Oblivion" [] {[ "y.bsa" := f2 ]})).1 = Return SSE.
Proof. vm_compute. split; reflexivity. Qed.

Lemma getFileFormat_pure_stateless_witness :
  let f1 := file_of [0x42; 0x53; 0x41; 0x00; 105; 0; 0; 0; 36; 0; 0; 0] in
  let f2 := file_of [0x42; 0x53; 0x41; 0x00; 105; 0; 0; 0; 99; 98; 97; 96] in
  (__getFileFormat "x.bsa" (start "Skyrim" [] {[ "x.bsa" := f1 ]})).1
  = (__getFileFormat "y.bsa" (start "Oblivion" [] {[ "y.bsa" := f2 ]})).1.
Proof.
  intros f1 f2.
  apply (proj1 getFileFormat_pure_stateless _ _ _ _ 12
           [x42; x53; x41; x00; x69; x00; x00; x00; x24; x00; x00; x00]
           [x42; x53; x41; x00; x69; x00; x00; x00; x63; x62; x61; x60]).
  - reflexivity.
  - reflexivity.
  - vm_compute. reflexivity.
  - vm_compute. reflexivity.
  - reflexivity.
Defined.

(** ** Validation of one archive *)

Ltac unfold_validate :=
  unfold __validateArchive, path_is_file, __getCurrentGame, the_organizer,
    getitem, log, modify, gets;
  unfold mbind, M_bind, bind, mret, M_ret, ret, raise.

Lemma validateArchive_not_a_file p s :
  is_regular (fs s !! p) = false →
  __validateArchive p s = (Return NOT_A_FILE, logged s [EvIsFile p]).
Proof.
  intros Hreg. destruct s as [c f t]. unfold_validate. cbn in *.
  by destruct (f !! p) as [[]|].
Qed.

Lemma validateArchive_wrong_extension p s org ext :
  is_regular (fs s !! p) = true →
  __organizer (self s) = Some org →
  __gameToExt (self s) !! gameName org = Some ext →
  path_suffix p ≠ ext →
  __validateArchive p s = (Return WRONG_EXTENSION, logged s [EvIsFile p]).
Proof.
  intros Hreg Horg Hext Hsuffix. destruct s as [c f t].
  unfold_validate. cbn -[path_suffix] in *.
  destruct (f !! p) as [[]|]; try done. cbn -[path_suffix].
  rewrite Horg. cbn -[path_suffix]. rewrite Hext.
  destruct (String.eqb_spec (path_suffix p) ext); done.
Qed.

Lemma validateArchive_sniffs p s org ext expected :
  is_regular (fs s !! p) = true →
  __organizer (self s) = Some org →
  __gameToExt (self s) !! gameName org = Some ext →
  __gameToFmt (self s) !! gameName org = Some expected →
  path_suffix p = ext →
  __validateArchive p s =
  (verdict expected
     (sniff_result (__magics (self s)) (__tes4Versions (self s)) (fs s !! p)),
   logged s (EvIsFile p :: sniff_events (__magics (self s)) p (fs s !! p))).
Proof.
  intros Hreg Horg Hext Hfmt Hsuffix. destruct s as [c f t].
  unfold_validate.
  cbn -[path_suffix __getFileFormat sniff_result sniff_events] in *.
  destruct (f !! p) as [[st_size data|]|] eqn:Hf; try done.
  cbn -[path_suffix __getFileFormat sniff_result sniff_events].
  rewrite Horg.
  cbn -[path_suffix __getFileFormat sniff_result sniff_events].
  rewrite Hext, Hsuffix, String.eqb_refl.
  cbn -[__getFileFormat sniff_result sniff_events].
  rewrite getFileFormat_run. cbn [self fs trace]. rewrite Hf.
  destruct (sniff_result _ _ _) as [fmt|e];
    cbn -[sniff_events]; rewrite <- ?app_assoc; [|done].
  rewrite Horg. cbn -[sniff_events]. rewrite Hfmt.
  by destruct (decide (fmt ≠ expected)).
Qed.

(** C2: for a regular file, under a game that both tables know, validation
    returns WRONG_EXTENSION exactly when the suffix differs from the game's
    extension, WRONG_FORMAT exactly when the suffix matches and the sniffed
    format differs from the game's format, and NONE otherwise: the file is
    flagged if and only if its extension or its header format does not fit
    the game. *)
Theorem validateArchive_flags s p org ext expected st_size data :
  __organizer (self s) = Some org →
  __gameToExt (self s) !! gameName org = Some ext →
  __gameToFmt (self s) !! gameName org = Some expected →
  fs s !! p = Some (RegularFile st_size data) →
  st_size = Z.of_nat (length data) →
  ∃ r sniffed,
    (__validateArchive p s).1 = Return r
    ∧ (__getFileFormat p s).1 = Return sniffed
    ∧ (r = WRONG_EXTENSION ↔ path_suffix p ≠ ext)
    ∧ (r = WRONG_FORMAT ↔ path_suffix p = ext ∧ sniffed ≠ expected)
    ∧ (r = NONE ↔ path_suffix p = ext ∧ sniffed = expected)
    ∧ (r ≠ NONE ↔ path_suffix p ≠ ext ∨ sniffed ≠ expected).
Proof.
  intros Horg Hext Hfmt Hf Hsz.
  assert (is_regular (fs s !! p) = true) as Hreg by by rewrite Hf.
  destruct (sniff_consistent (__magics (self s)) (__tes4Versions (self s))
              p st_size data Hsz) as [[sniffed Hsniffed] _].
  rewrite getFileFormat_run, Hf, Hsniffed.
  destruct (decide (path_suffix p = ext)) as [Hsuffix|Hsuffix].
  - rewrite (validateArchive_sniffs p s org ext expected) by done.
    rewrite Hf, Hsniffed. cbn [verdict fst].
    destruct (decide (sniffed ≠ expected)) as [Hne|Heq%dec_stable].
    + exists WRONG_FORMAT, sniffed. cbn. intuition congruence.
    + exists NONE, sniffed. cbn. intuition congruence.
  - rewrite (validateArchive_wrong_extension p s org ext) by done.
    exists WRONG_EXTENSION, sniffed. cbn. intuition congruence.
Qed.

Lemma validateArchive_flags_witness :
  (__validateArchive "Data/c.bsa" (start "Skyrim" demo_files demo_fs)).1
  = Return WRONG_FORMAT.
Proof.
  destruct (validateArchive_flags (start "Skyrim" demo_files demo_fs)
              "Data/c.bsa" (host "Skyrim" demo_files) ".bsa" FO3 8
              [x00; x01; x00; x00; x07; x00; x00; x00])
    as (r & sniffed & Hr & Hsniffed & _ & Hformat & _).
  - reflexivity.
  - vm_compute. reflexivity.
  - vm_compute. reflexivity.
  - vm_compute. reflexivity.
  - reflexivity.
  - rewrite Hr. f_equal. apply Hformat. split.
    + vm_compute. reflexivity.
    + vm_compute in Hsniffed. injection Hsniffed as <-. discriminate.
Defined.

(** ** The loop of the scan *)

Lemma validateArchive_result p s :
  (__validateArchive p s).1 = result (__validateArchive p) (self s) (fs s).
Proof. destruct s as [c f t]. by rewrite observer_validateArchive. Qed.

Lemma validateArchive_state p s :
  (__validateArchive p s).2 =
  logged s (events (__validateArchive p) (self s) (fs s)).
Proof. destruct s as [c f t]. by rewrite observer_validateArchive. Qed.

Lemma loop_result_cons file rest c f :
  result (listBadArchives_loop (file :: rest)) c f =
  match result (__validateArchive file) c f with
  | Return problem =>
      match result (listBadArchives_loop rest) c f with
      | Return yielded =>
          Return (if decide (problem ≠ NONE)
                  then mkProblemArchive file problem :: yielded
                  else yielded)
      | Raise e => Raise e
      end
  | Raise e => Raise e
  end.
Proof.
  cbn [listBadArchives_loop].
  rewrite result_bind; [|apply observer_validateArchive|].
  2: { intros problem. apply observer_bind;
         [apply observer_listBadArchives_loop|intros y; apply observer_ret]. }
  destruct (result (__validateArchive file) c f) as [problem|e]; [|done].
  rewrite result_bind;
    [|apply observer_listBadArchives_loop|intros y; apply observer_ret].
  by destruct (result (listBadArchives_loop rest) c f).
Qed.

Lemma loop_events_cons file rest c f :
  events (listBadArchives_loop (file :: rest)) c f =
  events (__validateArchive file) c f ++
  match result (__validateArchive file) c f with
  | Return _ => events (listBadArchives_loop rest) c f
  | Raise _ => []
  end.
Proof.
  cbn [listBadArchives_loop].
  rewrite events_bind; [|apply observer_validateArchive|].
  2: { intros problem. apply observer_bind;
         [apply observer_listBadArchives_loop|intros y; apply observer_ret]. }
  f_equal.
  destruct (result (__validateArchive file) c f) as [problem|e]; [|done].
  rewrite events_bind;
    [|apply observer_listBadArchives_loop|intros y; apply observer_ret].
  destruct (result (listBadArchives_loop rest) c f); cbn; by rewrite app_nil_r.
Qed.

Lemma loop_returns files c f :
  (∀ file, file ∈ files →
     ∃ problem, result (__validateArchive file) c f = Return problem) →
  result (listBadArchives_loop files) c f = Return (omap (bad_archive c f) files)
  ∧ events (listBadArchives_loop files) c f
    = concat ((λ file, events (__validateArchive file) c f) <$> files).
Proof.
  induction files as [|file rest IH]; intros Hall; [done|].
  destruct (Hall file) as [problem Hproblem]; [by left|].
  destruct (IH ltac:(intros; apply Hall; by right)) as [IHr IHe].
  rewrite loop_result_cons, loop_events_cons, Hproblem, IHr, IHe.
  split; [|done].
  change (omap (bad_archive c f) (file :: rest))
    with (match bad_archive c f file with
          | Some a => a :: omap (bad_archive c f) rest
          | None => omap (bad_archive c f) rest
          end).
  assert (bad_archive c f file =
          if decide (problem ≠ NONE)
          then Some (mkProblemArchive file problem) else None) as ->
    by (unfold bad_archive; by rewrite Hproblem).
  by destruct (decide (problem ≠ NONE)).
Qed.

Lemma loop_yields_problems files c f yielded :
  result (listBadArchives_loop files) c f = Return yielded →
  Forall (λ a, problem a ≠ NONE) yielded.
Proof.
  revert yielded. induction files as [|file rest IH]; intros yielded.
  { intros [= <-]. constructor. }
  rewrite loop_result_cons.
  destruct (result (__validateArchive file) c f) as [pr|e]; [|done].
  destruct (result (listBadArchives_loop rest) c f) as [y|e]; [|done].
  intros [= <-]. specialize (IH y eq_refl).
  destruct (decide (pr ≠ NONE)); [by constructor|done].
Qed.

Lemma activeProblems_run c f t :
  activeProblems (mkState c f t) =
  match result __listBadArchives c f with
  | Return bad =>
      (Return (problem_values bad),
       mkState (set_archives bad c) f (t ++ events __listBadArchives c f))
  | Raise e => (Raise e, mkState c f (t ++ events __listBadArchives c f))
  end.
Proof.
  unfold activeProblems. rewrite bind_run by apply observer_listBadArchives.
  by destruct (result __listBadArchives c f).
Qed.

Lemma the_organizer_at c f :
  result the_organizer c f =
  match __organizer c with
  | Some org => Return org
  | None => Raise AttributeError
  end
  ∧ events the_organizer c f = [].
Proof.
  unfold result, events, the_organizer, gets, mbind, M_bind, bind. cbn.
  by destruct (__organizer c).
Qed.

Lemma listBadArchives_organizer c f org :
  __organizer c = Some org →
  result __listBadArchives c f
  = result (listBadArchives_loop (findFiles org "" "*.b[sa][a2]")) c f
  ∧ events __listBadArchives c f
    = events (listBadArchives_loop (findFiles org "" "*.b[sa][a2]")) c f.
Proof.
  intros Horg. unfold __listBadArchives.
  destruct (the_organizer_at c f) as [Hr He].
  rewrite result_bind, events_bind;
    try apply observer_the_organizer;
    try (intros; apply observer_listBadArchives_loop).
  by rewrite Hr, He, Horg.
Qed.

Lemma listBadArchives_no_organizer c f :
  __organizer c = None →
  result __listBadArchives c f = Raise AttributeError
  ∧ events __listBadArchives c f = [].
Proof.
  intros Horg. unfold __listBadArchives.
  destruct (the_organizer_at c f) as [Hr He].
  rewrite result_bind, events_bind;
    try apply observer_the_organizer;
    try (intros; apply observer_listBadArchives_loop).
  by rewrite Hr, He, Horg.
Qed.

Lemma validateArchive_returns c f org ext expected p :
  __organizer c = Some org →
  __gameToExt c !! gameName org = Some ext →
  __gameToFmt c !! gameName org = Some expected →
  fs_consistent f →
  ∃ problem, result (__validateArchive p) c f = Return problem.
Proof.
  intros Horg Hext Hexpected Hfs.
  unfold result.
  destruct (is_regular (f !! p)) eqn:Hreg.
  2: { rewrite validateArchive_not_a_file by done. by eexists. }
  destruct (decide (path_suffix p = ext)) as [Hsuffix|Hsuffix].
  2: { rewrite (validateArchive_wrong_extension _ _ org ext) by done.
       by eexists. }
  rewrite (validateArchive_sniffs _ _ org ext expected) by done.
  cbn [self fs fst].
  destruct (f !! p) as [[st_size data|]|] eqn:Hf; try done.
  destruct (sniff_consistent (__magics c) (__tes4Versions c) p st_size data
              (Hfs p _ Hf)) as [[fmt ->] _].
  by eexists.
Qed.

Lemma validateArchive_events_shape p c f :
  events (__validateArchive p) c f = [EvIsFile p]
  ∨ events (__validateArchive p) c f
    = EvIsFile p :: sniff_events (__magics c) p (f !! p).
Proof.
  unfold events. unfold_validate.
  cbn -[path_suffix __getFileFormat sniff_result sniff_events].
  destruct (f !! p) as [[st_size data|]|] eqn:Hf; try (by left).
  cbn -[path_suffix __getFileFormat sniff_result sniff_events].
  destruct (__organizer c) as [org|] eqn:Horg; [|by left].
  cbn -[path_suffix __getFileFormat sniff_result sniff_events].
  destruct (__gameToExt c !! gameName org) as [ext|]; [|by left].
  destruct (path_suffix p =? ext)%string; [|by left].
  cbn -[__getFileFormat sniff_result sniff_events].
  rewrite getFileFormat_run. cbn [self fs trace]. rewrite Hf.
  destruct (sniff_result _ _ _) as [fmt|e];
    cbn -[sniff_events]; [|by right].
  rewrite Horg. cbn -[sniff_events].
  destruct (__gameToFmt c !! gameName org) as [expected|]; [|by right].
  destruct (decide (fmt ≠ expected)); by right.
Qed.

Lemma validateArchive_sniffs_events p c f org ext :
  is_regular (f !! p) = true →
  __organizer c = Some org →
  __gameToExt c !! gameName org = Some ext →
  path_suffix p = ext →
  events (__validateArchive p) c f
  = EvIsFile p :: sniff_events (__magics c) p (f !! p).
Proof.
  intros Hreg Horg Hext Hsuffix. unfold events. unfold_validate.
  cbn -[path_suffix __getFileFormat sniff_result sniff_events].
  destruct (f !! p) as [[st_size data|]|] eqn:Hf; try done.
  cbn -[path_suffix __getFileFormat sniff_result sniff_events].
  rewrite Horg.
  cbn -[path_suffix __getFileFormat sniff_result sniff_events].
  rewrite Hext, Hsuffix, String.eqb_refl.
  cbn -[__getFileFormat sniff_result sniff_events].
  rewrite getFileFormat_run. cbn [self fs trace]. rewrite Hf.
  destruct (sniff_result _ _ _) as [fmt|e]; cbn -[sniff_events]; [|done].
  rewrite Horg. cbn -[sniff_events].
  destruct (__gameToFmt c !! gameName org) as [expected|]; [|done].
  by destruct (decide (fmt ≠ expected)).
Qed.

Lemma validateArchive_sniffer_calls c f org ext p :
  __organizer c = Some org →
  __gameToExt c !! gameName org = Some ext →
  sniffer_calls (events (__validateArchive p) c f) =
  if is_regular (f !! p) && bool_decide (path_suffix p = ext)
  then 1%nat else 0%nat.
Proof.
  intros Horg Hext.
  destruct (is_regular (f !! p)) eqn:Hreg.
  2: { unfold events. by rewrite validateArchive_not_a_file. }
  cbn [andb]. case_bool_decide as Hsuffix.
  2: { unfold events.
       by rewrite (validateArchive_wrong_extension _ _ org ext). }
  rewrite (validateArchive_sniffs_events p c f org ext) by done.
  cbn [sniffer_calls]. apply sniff_events_bound.
Qed.

Lemma bytes_requested_app evs1 evs2 :
  bytes_requested (evs1 ++ evs2) = (bytes_requested evs1 + bytes_requested evs2)%nat.
Proof.
  induction evs1 as [|[] evs1 IH]; cbn; lia.
Qed.

Lemma sniffer_calls_app evs1 evs2 :
  sniffer_calls (evs1 ++ evs2) = (sniffer_calls evs1 + sniffer_calls evs2)%nat.
Proof.
  induction evs1 as [|[] evs1 IH]; cbn; lia.
Qed.

Lemma sniff_events_read_only magics p n :
  Forall read_only_event (sniff_events magics p n).
Proof.
  unfold sniff_events.
  destruct n as [[st_size data|st_size]|]; [| |forall_events].
  2: { destruct (st_size <? 4); forall_events. }
  destruct (st_size <? 4); [forall_events|].
  assert (length (take 4 data) ≤ 4)%nat by (rewrite length_take; lia).
  assert (length (take 4 (drop 4 data)) ≤ 4)%nat by (rewrite length_take; lia).
  destruct (take 4 data) as [|b0 [|b1 [|b2 [|b3 [|b4 r]]]]] eqn:Hmagic;
    try forall_events.
  destruct (decide _); [|forall_events].
  destruct (st_size <? 8); forall_events.
Qed.

Lemma read_only_log_app evs1 evs2 :
  read_only_log evs1 → read_only_log evs2 → read_only_log (evs1 ++ evs2).
Proof.
  intros [H1 B1] [H2 B2]. split; [by apply Forall_app|].
  rewrite bytes_requested_app, sniffer_calls_app. lia.
Qed.

Lemma validateArchive_read_only p c f :
  read_only_log (events (__validateArchive p) c f).
Proof.
  destruct (validateArchive_events_shape p c f) as [->| ->].
  { split; [forall_events|cbn; lia]. }
  destruct (sniff_events_bound (__magics c) p (f !! p)) as (Hreq & _ & Hcalls & _).
  split.
  - apply Forall_cons_2; [done|apply sniff_events_read_only].
  - cbn [bytes_requested sniffer_calls]. lia.
Qed.

Lemma loop_read_only files c f :
  read_only_log (events (listBadArchives_loop files) c f).
Proof.
  induction files as [|file rest IH].
  { split; [constructor|cbn; lia]. }
  rewrite loop_events_cons. apply read_only_log_app.
  - apply validateArchive_read_only.
  - destruct (result (__validateArchive file) c f); [done|].
    split; [constructor|cbn; lia].
Qed.

Example fullDescription_demo :
  (fullDescription 3 (activeProblems (start "Skyrim" demo_files demo_fs)).2).1
  = Return "The following archives are using an extension meant for a different game:<br><br>•  b.ba2".
Proof. vm_compute. reflexivity. Qed.

(** ** The scan *)

Lemma activeProblems_trace s org :
  __organizer (self s) = Some org →
  (∀ file, file ∈ findFiles org "" "*.b[sa][a2]" →
     ∃ problem, result (__validateArchive file) (self s) (fs s) = Return problem) →
  activeProblems s =
  (Return (problem_values
             (omap (bad_archive (self s) (fs s)) (findFiles org "" "*.b[sa][a2]"))),
   mkState
     (set_archives
        (omap (bad_archive (self s) (fs s)) (findFiles org "" "*.b[sa][a2]"))
        (self s))
     (fs s)
     (trace s ++
      concat ((λ file, events (__validateArchive file) (self s) (fs s))
                <$> findFiles org "" "*.b[sa][a2]"))).
Proof.
  intros Horg Hall. destruct s as [c f t]. cbn [self fs trace] in *.
  rewrite activeProblems_run.
  destruct (listBadArchives_organizer c f org Horg) as [-> ->].
  by destruct (loop_returns _ c f Hall) as [-> ->].
Qed.

(** C6: a call of [activeProblems] on which every validation returns
    replaces [__archives] by the list, in enumeration order, of the
    enumerated files whose validation yields a problem other than NONE,
    each paired with that problem; the list does not depend on what
    [__archives] held before. *)
Theorem activeProblems_rebuilds s org :
  __organizer (self s) = Some org →
  (∀ file, file ∈ findFiles org "" "*.b[sa][a2]" →
     ∃ problem, (__validateArchive file s).1 = Return problem) →
  ∃ values s',
    activeProblems s = (Return values, s')
    ∧ __archives (self s') =
      omap (λ file,
              match (__validateArchive file s).1 with
              | Return problem =>
                  if decide (problem ≠ NONE)
                  then Some (mkProblemArchive file problem)
                  else None
              | Raise _ => None
              end)
           (findFiles org "" "*.b[sa][a2]")
    ∧ (∀ file problem,
         mkProblemArchive file problem ∈ __archives (self s') ↔
         file ∈ findFiles org "" "*.b[sa][a2]"
         ∧ (__validateArchive file s).1 = Return problem
         ∧ problem ≠ NONE).
Proof.
  intros Horg Hall.
  assert (∀ file, file ∈ findFiles org "" "*.b[sa][a2]" →
            ∃ problem, result (__validateArchive file) (self s) (fs s)
                       = Return problem) as Hall'.
  { intros file Hin. rewrite <- validateArchive_result. by apply Hall. }
  do 2 eexists. split; [by apply activeProblems_trace|].
  cbn [self __archives set_archives].
  assert (∀ file, bad_archive (self s) (fs s) file =
            match (__validateArchive file s).1 with
            | Return problem =>
                if decide (problem ≠ NONE)
                then Some (mkProblemArchive file problem)
                else None
            | Raise _ => None
            end) as Hbad.
  { intros file. unfold bad_archive. by rewrite validateArchive_result. }
  split.
  - apply list_omap_ext, Forall2_same_length_lookup_2; [done|].
    intros i file file' Hfile Hfile'. rewrite Hfile in Hfile'.
    injection Hfile' as <-. apply Hbad.
  - intros file problem. rewrite list_elem_of_omap. split.
    + intros (file' & Hin & Hsome). rewrite Hbad in Hsome.
      destruct ((__validateArchive file' s).1) as [pr|] eqn:Hpr; [|done].
      destruct (decide (pr ≠ NONE)); [|done].
      injection Hsome as -> ->. done.
    + intros (Hin & Hpr & Hne). exists file. split; [done|].
      rewrite Hbad, Hpr. by destruct (decide (problem ≠ NONE)).
Qed.

Lemma demo_validations_return file :
  file ∈ demo_files →
  ∃ problem,
    (__validateArchive file (start "Skyrim" demo_files demo_fs)).1 = Return problem.
Proof.
  unfold demo_files. rewrite !elem_of_cons, elem_of_nil.
  intros [->|[->|[->|[->|[->|[->|[]]]]]]]; eexists; vm_compute; reflexivity.
Qed.

Lemma activeProblems_rebuilds_witness :
  ∃ values s',
    activeProblems (start "Skyrim" demo_files demo_fs) = (Return values, s')
    ∧ __archives (self s') =
      [mkProblemArchive "Data/b.ba2" WRONG_EXTENSION;
       mkProblemArchive "Data/c.bsa" WRONG_FORMAT;
       mkProblemArchive "Data/d.bsa" WRONG_FORMAT;
       mkProblemArchive "Data/e.bsa" NOT_A_FILE;
       mkProblemArchive "Data/f.bsa" NOT_A_FILE].
Proof.
  destruct (activeProblems_rebuilds (start "Skyrim" demo_files demo_fs)
              (host "Skyrim" demo_files) eq_refl demo_validations_return)
    as (values & s' & Hrun & Harchives & _).
  exists values, s'. split; [exact Hrun|].
  rewrite Harchives. vm_compute. reflexivity.
Defined.

Lemma problem_values_spec archives :
  NoDup (problem_values archives)
  ∧ ∀ v, v ∈ problem_values archives ↔
         ∃ a, a ∈ archives ∧ ProblemEnum.value (problem a) = v.
Proof.
  unfold problem_values. split; [apply NoDup_elements|].
  intros v. rewrite elem_of_elements, elem_of_list_to_set, list_elem_of_fmap.
  split.
  - intros (a & -> & Hin). by exists a.
  - intros (a & Hin & <-). by exists a.
Qed.

Lemma value_NONE p : ProblemEnum.value p = ProblemEnum.value NONE → p = NONE.
Proof. by destruct p. Qed.

(** C9: whenever [activeProblems] returns, the list it returns has no
    repeated value, does not contain the value of [Problem.NONE], and holds
    exactly the values of the problems stored in [__archives]; and it does
    return, for every consistent file system, under every supported game. *)
Theorem activeProblems_distinct_values :
  (∀ s values,
     (activeProblems s).1 = Return values →
     NoDup values
     ∧ (ProblemEnum.value NONE ∉ values)
     ∧ ∀ v, v ∈ values ↔
            ∃ a, a ∈ __archives (self (activeProblems s).2)
                 ∧ ProblemEnum.value (problem a) = v)
  ∧ (∀ s org,
       __organizer (self s) = Some org →
       static_tables (self s) →
       gameName org ∈ __supportedGames (self s) →
       fs_consistent (fs s) →
       ∃ values, (activeProblems s).1 = Return values).
Proof.
  split.
  - intros [c f t] values. rewrite activeProblems_run.
    destruct (result __listBadArchives c f) as [bad|e] eqn:Hbad; [|done].
    cbn [fst snd self __archives set_archives]. intros [= <-].
    destruct (problem_values_spec bad) as [Hnodup Hvalues].
    repeat split; [done| |apply Hvalues..].
    intros (a & Hin & Hnone%value_NONE)%Hvalues.
    assert (Forall (λ a, problem a ≠ NONE) bad) as Hall.
    { destruct (__organizer c) as [org|] eqn:Horg.
      - destruct (listBadArchives_organizer c f org Horg) as [Hr _].
        rewrite Hr in Hbad. by eapply loop_yields_problems.
      - destruct (listBadArchives_no_organizer c f Horg) as [Hr _].
        by rewrite Hr in Hbad. }
    by rewrite Forall_forall in Hall; apply (Hall a).
  - intros s org Horg Htab Hgame Hfs.
    destruct (supported_game_ext _ _ Htab Hgame) as [ext Hext].
    destruct (supported_game_fmt _ _ Htab Hgame) as [expected Hexpected].
    rewrite (activeProblems_trace s org Horg); [by eexists|].
    intros file _. by eapply validateArchive_returns.
Qed.

Lemma demo_fs_consistent : fs_consistent demo_fs.
Proof.
  intros p n. unfold demo_fs.
  rewrite !lookup_insert, lookup_empty.
  repeat case_decide; intros [= <-]; vm_compute; done.
Qed.

Lemma activeProblems_distinct_values_witness :
  ∃ values,
    (activeProblems (start "Skyrim" demo_files demo_fs)).1 = Return values
    ∧ NoDup values ∧ (ProblemEnum.value NONE ∉ values).
Proof.
  destruct (proj2 activeProblems_distinct_values
              (start "Skyrim" demo_files demo_fs) (host "Skyrim" demo_files))
    as [values Hvalues].
  - reflexivity.
  - apply static_tables_set_organizer, static_tables_init.
  - vm_compute. reflexivity.
  - apply demo_fs_consistent.
  - exists values. split; [exact Hvalues|].
    destruct (proj1 activeProblems_distinct_values _ _ Hvalues) as (? & ? & _).
    by split.
Defined.

(** C5 fails when read as "once for every enumerated file": an enumerated
    regular file with the wrong extension is never sniffed.  The scan below
    enumerates one such file and makes no sniffer call. *)
Lemma sniffer_skipped_on_wrong_extension :
  let s := start "Skyrim" ["Data/b.ba2"] demo_fs in
  findFiles (host "Skyrim" ["Data/b.ba2"]) "" "*.b[sa][a2]" = ["Data/b.ba2"]
  ∧ is_regular (fs s !! "Data/b.ba2") = true
  ∧ (activeProblems s).1 = Return [ProblemEnum.value WRONG_EXTENSION]
  ∧ trace (activeProblems s).2 = [EvIsFile "Data/b.ba2"]
  ∧ sniffer_calls (trace (activeProblems s).2) ≠ 1%nat.
Proof. vm_compute. repeat split. discriminate. Qed.

(** C5, in the form the code satisfies: during a scan under a game the tables know, on files whose
    size is what [stat] says, the log is the concatenation, in enumeration
    order, of the accesses of one validation per enumerated file; a
    validation calls the sniffer once when the file is a regular file with
    the game's extension and not at all otherwise; and every validation
    leaves the plugin object and the file system as they were, so that no
    call sees anything an earlier call did. *)
Theorem sniffer_once_per_matching_file s org ext expected :
  __organizer (self s) = Some org →
  __gameToExt (self s) !! gameName org = Some ext →
  __gameToFmt (self s) !! gameName org = Some expected →
  fs_consistent (fs s) →
  let files := findFiles org "" "*.b[sa][a2]" in
  let per_file file := events (__validateArchive file) (self s) (fs s) in
  trace (activeProblems s).2 = trace s ++ concat (per_file <$> files)
  ∧ (∀ file,
       sniffer_calls (per_file file) =
       if is_regular (fs s !! file) && bool_decide (path_suffix file = ext)
       then 1%nat else 0%nat)
  ∧ (∀ file t,
       (__validateArchive file (mkState (self s) (fs s) t)).2
       = mkState (self s) (fs s) (t ++ per_file file)).
Proof.
  intros Horg Hext Hexpected Hfs files per_file. repeat split.
  - rewrite (activeProblems_trace s org Horg); [done|].
    intros file _. by eapply validateArchive_returns.
  - intros file. by eapply validateArchive_sniffer_calls.
  - intros file t. by rewrite observer_validateArchive.
Qed.

Lemma sniffer_once_per_matching_file_witness :
  let s := start "Skyrim" demo_files demo_fs in
  sniffer_calls (trace (activeProblems s).2) = 3%nat
  ∧ sniffer_calls (events (__validateArchive "Data/a.bsa") (self s) (fs s)) = 1%nat
  ∧ sniffer_calls (events (__validateArchive "Data/b.ba2") (self s) (fs s)) = 0%nat.
Proof.
  intros s.
  destruct (sniffer_once_per_matching_file s (host "Skyrim" demo_files)
              ".bsa" FO3) as (Htrace & Hcalls & _).
  - reflexivity.
  - vm_compute. reflexivity.
  - vm_compute. reflexivity.
  - apply demo_fs_consistent.
  - split; [rewrite Htrace; vm_compute; reflexivity|].
    rewrite !Hcalls. vm_compute. split; reflexivity.
Defined.

(** ** Frame: the plugin only reads *)

Lemma silent_leaves_files_alone {A} (m : M A) :
  silent m → leaves_files_alone m.
Proof.
  intros Hm s. destruct (Hm s) as [Hfs Htrace]. split; [done|].
  exists []. rewrite app_nil_r. split; [done|].
  split; [constructor|cbn; lia].
Qed.

Lemma observer_leaves_files_alone {A} (m : M A) :
  observer m → (∀ c f, read_only_log (events m c f)) →
  leaves_files_alone m.
Proof.
  intros Hm Hlog [c f t]. split; [by rewrite Hm|].
  exists (events m c f). by rewrite Hm.
Qed.

Lemma silent_Problem_of_value key : silent (Problem_of_value key).
Proof. intros s. unfold Problem_of_value. by repeat case_decide. Qed.

Lemma silent_hasGuidedFix key : silent (hasGuidedFix key).
Proof.
  intros s. unfold hasGuidedFix, Problem_of_value, mbind, M_bind, bind.
  by repeat case_decide.
Qed.

Lemma silent_shortDescription key : silent (shortDescription key).
Proof.
  intros s. unfold shortDescription, Problem_of_value, mbind, M_bind, bind.
  repeat case_decide; cbn; try done; by destruct (_ !! _).
Qed.

Lemma silent_fullDescription key : silent (fullDescription key).
Proof.
  intros s. unfold fullDescription, Problem_of_value, mbind, M_bind, bind.
  repeat case_decide; cbn -[str_format]; try done; by destruct (_ !! _).
Qed.

Lemma silent_getCurrentGame : silent __getCurrentGame.
Proof.
  intros s. unfold __getCurrentGame, the_organizer, mbind, M_bind, bind. cbn.
  by destruct (__organizer (self s)).
Qed.

Lemma sniff_read_only_log magics p n :
  read_only_log (sniff_events magics p n).
Proof.
  split; [apply sniff_events_read_only|].
  destruct (sniff_events_bound magics p n) as (? & _ & -> & _). lia.
Qed.

(** C7: no method of the plugin changes the file system.  A scan returns
    the file system it was given, and its only file accesses are [is_file]
    and [stat] queries, opens with mode ["rb"], and four-byte reads, at most
    eight bytes per call of the sniffer; the other methods access no file
    at all. *)
Theorem plugin_only_reads :
  leaves_files_alone activeProblems
  ∧ leaves_files_alone __listBadArchives
  ∧ (∀ p, leaves_files_alone (__validateArchive p))
  ∧ (∀ p, leaves_files_alone (__getFileFormat p))
  ∧ silent __getCurrentGame
  ∧ (∀ organizer, silent (init organizer))
  ∧ (∀ key, silent (hasGuidedFix key))
  ∧ (∀ key, silent (startGuidedFix key))
  ∧ (∀ key, silent (shortDescription key))
  ∧ (∀ key, silent (fullDescription key))
  ∧ silent author ∧ silent description ∧ silent name ∧ silent settings
  ∧ silent version.
Proof.
  assert (∀ c f, read_only_log (events __listBadArchives c f)) as Hlist.
  { intros c f. destruct (__organizer c) as [org|] eqn:Horg.
    - destruct (listBadArchives_organizer c f org Horg) as [_ ->].
      apply loop_read_only.
    - destruct (listBadArchives_no_organizer c f Horg) as [_ ->].
      split; [constructor|cbn; lia]. }
  repeat split; try done.
  - by destruct s as [c f t]; rewrite activeProblems_run;
      destruct (result __listBadArchives c f).
  - destruct s as [c f t]. rewrite activeProblems_run.
    exists (events __listBadArchives c f).
    by destruct (result __listBadArchives c f).
  - apply observer_leaves_files_alone; [apply observer_listBadArchives|done].
  - apply observer_leaves_files_alone; [apply observer_listBadArchives|done].
  - apply observer_leaves_files_alone;
      [apply observer_validateArchive|apply validateArchive_read_only].
  - apply observer_leaves_files_alone;
      [apply observer_validateArchive|apply validateArchive_read_only].
  - rewrite getFileFormat_run. done.
  - rewrite getFileFormat_run. eexists. split; [done|].
    apply sniff_read_only_log.
  - apply silent_getCurrentGame.
  - apply silent_getCurrentGame.
  - apply silent_hasGuidedFix.
  - apply silent_hasGuidedFix.
  - apply silent_shortDescription.
  - apply silent_shortDescription.
  - apply silent_fullDescription.
  - apply silent_fullDescription.
Qed.

(** ** Guided fixes *)

Lemma Problem_of_value_run key problem s :
  (Problem_of_value key s).1 = Return problem ↔ key = ProblemEnum.value problem.
Proof.
  unfold Problem_of_value. split.
  - repeat case_decide; subst; cbn; intros [= <-]; done.
  - intros ->. by destruct problem.
Qed.

(** C10: the plugin offers no guided fix.  For a key that decodes to a
    problem other than NONE, [hasGuidedFix] returns [False]; for the key of
    [Problem.NONE] it raises [IndexError]; [startGuidedFix] raises
    [ValueError] for every key.  None of them changes the state. *)
Theorem no_guided_fix :
  (∀ key problem s,
     (Problem_of_value key s).1 = Return problem →
     problem ≠ NONE →
     hasGuidedFix key s = (Return false, s))
  ∧ (∀ s, hasGuidedFix (ProblemEnum.value NONE) s = (Raise IndexError, s))
  ∧ (∀ key s, startGuidedFix key s = (Raise ValueError, s)).
Proof.
  split; [|split].
  - intros key problem s ->%Problem_of_value_run Hne.
    by destruct problem.
  - done.
  - done.
Qed.

Lemma no_guided_fix_witness :
  let s := start "Skyrim" demo_files demo_fs in
  hasGuidedFix 2 s = (Return false, s)
  ∧ hasGuidedFix 3 s = (Return false, s)
  ∧ hasGuidedFix 4 s = (Return false, s).
Proof.
  intros s.
  pose proof (proj1 no_guided_fix) as H.
  split; [|split].
  - apply (H 2 NOT_A_FILE s); [reflexivity|discriminate].
  - apply (H 3 WRONG_EXTENSION s); [reflexivity|discriminate].
  - apply (H 4 WRONG_FORMAT s); [reflexivity|discriminate].
Defined.

Example hasGuidedFix_other_keys :
  let s := start "Skyrim" demo_files demo_fs in
  hasGuidedFix 0 s = (Raise ValueError, s)
  ∧ hasGuidedFix 5 s = (Raise ValueError, s).
Proof. split; reflexivity. Qed.

(** * Part IV: further properties of the code *)

(** ** Packing and unpacking *)

Lemma byte_of_val b : byte_of (byte_val b) = b.
Proof.
  unfold byte_of, byte_val. by rewrite N2Z.id, Byte.of_to_N.
Qed.

Lemma byte_val_of z : 0 ≤ z < 256 → byte_val (byte_of z) = z.
Proof.
  intros Hz. unfold byte_of, byte_val.
  destruct (Byte.of_N (Z.to_N z)) as [b|] eqn:Hb.
  - apply Byte.to_of_N in Hb. cbn. rewrite Hb. lia.
  - apply Byte.of_N_None_iff in Hb. lia.
Qed.

Lemma u32_pack_le32 b0 b1 b2 b3 :
  u32_pack (le32 b0 b1 b2 b3) = [b0; b1; b2; b3].
Proof.
  pose proof (byte_val_range b0). pose proof (byte_val_range b1).
  pose proof (byte_val_range b2). pose proof (byte_val_range b3).
  rewrite le32_value. unfold u32_pack.
  set (v := byte_val b0 + 256 * byte_val b1 + 65536 * byte_val b2
            + 16777216 * byte_val b3).
  assert (v mod 256 = byte_val b0) as -> by (subst v; Z.div_mod_to_equations; lia).
  assert (v / 256 mod 256 = byte_val b1) as ->
    by (subst v; Z.div_mod_to_equations; lia).
  assert (v / 65536 mod 256 = byte_val b2) as ->
    by (subst v; Z.div_mod_to_equations; lia).
  assert (v / 16777216 mod 256 = byte_val b3) as ->
    by (subst v; Z.div_mod_to_equations; lia).
  by rewrite !byte_of_val.
Qed.

Lemma le32_u32_pack z b0 b1 b2 b3 :
  0 ≤ z < 2 ^ 32 → u32_pack z = [b0; b1; b2; b3] → le32 b0 b1 b2 b3 = z.
Proof.
  intros Hz [= <- <- <- <-]. change (2 ^ 32) with 4294967296 in Hz.
  rewrite le32_value, !byte_val_of by (Z.div_mod_to_equations; lia).
  Z.div_mod_to_equations; lia.
Qed.

Lemma le32_is z b0 b1 b2 b3 :
  0 ≤ z < 2 ^ 32 → le32 b0 b1 b2 b3 = z ↔ [b0; b1; b2; b3] = u32_pack z.
Proof.
  intros Hz. split.
  - intros <-. by rewrite u32_pack_le32.
  - intros Heq. by apply le32_u32_pack.
Qed.

(** X1: [unpack] and [pack] are inverse.  [unpack] returns exactly on
    four-byte buffers, the value it returns is below 2^32 and packs back to
    the buffer; any other buffer raises [struct.error]. *)
Theorem u32_unpack_round_trip (buf : list byte) (s : state) :
  (∀ z, u32_unpack buf s = (Return z, s) ↔ 0 ≤ z < 2 ^ 32 ∧ buf = u32_pack z)
  ∧ (u32_unpack buf s = (Raise StructError, s) ↔ length buf ≠ 4%nat).
Proof.
  unfold u32_unpack.
  destruct buf as [|b0 [|b1 [|b2 [|b3 [|b4 rest]]]]]; cbn;
    try (split; [intros z; split; [done|by intros [_ [=]]]|done]).
  split; [|done].
  intros z. unfold ret. split.
  - intros [= <-]. split; [apply le32_range|]. by rewrite u32_pack_le32.
  - intros [Hz Hbuf]. by rewrite (le32_u32_pack z).
Qed.

Example pack_BTDX : u32_pack 0x58445442 = [x42; x54; x44; x58].
Proof. reflexivity. Qed.

Example pack_BSA : u32_pack 0x00415342 = [x42; x53; x41; x00].
Proof. reflexivity. Qed.

Lemma starts_with_magic m data :
  0 ≤ m < 2 ^ 32 →
  starts_with (u32_pack m) data ↔
  ∃ b0 b1 b2 b3 rest,
    data = b0 :: b1 :: b2 :: b3 :: rest ∧ le32 b0 b1 b2 b3 = m.
Proof.
  intros Hm. unfold starts_with. change (length (u32_pack m)) with 4%nat.
  split.
  - destruct data as [|b0 [|b1 [|b2 [|b3 rest]]]]; try done.
    cbn [take firstn]. rewrite take_0. intros Heq.
    exists b0, b1, b2, b3, rest. split; [done|]. by apply le32_is.
  - intros (b0 & b1 & b2 & b3 & rest & -> & Hle).
    cbn [take firstn]. rewrite take_0. by apply le32_is.
Qed.

Lemma starts_with_magic_version m v data :
  0 ≤ m < 2 ^ 32 → 0 ≤ v < 2 ^ 32 →
  starts_with (u32_pack m ++ u32_pack v) data ↔
  ∃ b0 b1 b2 b3 v0 v1 v2 v3 rest,
    data = b0 :: b1 :: b2 :: b3 :: v0 :: v1 :: v2 :: v3 :: rest
    ∧ le32 b0 b1 b2 b3 = m ∧ le32 v0 v1 v2 v3 = v.
Proof.
  intros Hm Hv. unfold starts_with.
  change (length (u32_pack m ++ u32_pack v)) with 8%nat.
  split.
  - destruct data as [|b0 [|b1 [|b2 [|b3 [|v0 [|v1 [|v2 [|v3 rest]]]]]]]];
      try done.
    cbn [take firstn]. rewrite take_0.
    change [b0; b1; b2; b3; v0; v1; v2; v3]
      with ([b0; b1; b2; b3] ++ [v0; v1; v2; v3]).
    intros [Hmagic Hversion]%app_inj_1; [|done].
    exists b0, b1, b2, b3, v0, v1, v2, v3, rest.
    split; [done|]. split; by apply le32_is.
  - intros (b0 & b1 & b2 & b3 & v0 & v1 & v2 & v3 & rest & -> & Hmagic & Hversion).
    cbn [take firstn]. rewrite take_0.
    apply le32_is in Hmagic, Hversion; [|done..].
    by rewrite <- Hmagic, <- Hversion.
Qed.

(** ** Signatures *)

Lemma sniff_result_classify st_size data :
  st_size = Z.of_nat (length data) →
  sniff_result (__magics __init__) (__tes4Versions __init__)
               (Some (RegularFile st_size data))
  = Return (classify data).
Proof.
  intros Hsz. unfold sniff_result, classify.
  destruct data as [|b0 [|b1 [|b2 [|b3 rest]]]]; cbn in Hsz.
  1-4: by assert ((st_size <? 4) = true) as -> by lia.
  assert ((st_size <? 4) = false) as -> by lia.
  cbn [take firstn]. rewrite take_0, magics_get. cbn zeta.
  destruct (decide _); [|done].
  destruct rest as [|v0 [|v1 [|v2 [|v3 rest']]]]; cbn in Hsz.
  1-4: by assert ((st_size <? 8) = true) as -> by lia.
  assert ((st_size <? 8) = false) as -> by lia.
  cbn [drop skipn take firstn]. by rewrite take_0, tes4Versions_get.
Qed.

Lemma classify_magic b0 b1 b2 b3 rest fmt :
  fmt = TES3 ∨ fmt = FO4 →
  classify (b0 :: b1 :: b2 :: b3 :: rest) = fmt ↔
  magic_table (le32 b0 b1 b2 b3) = fmt.
Proof.
  intros Hfmt. unfold classify. cbn zeta.
  destruct (decide (magic_table (le32 b0 b1 b2 b3) = TES4)) as [Heq|_];
    [|done].
  rewrite Heq. split; [|intros <-; by destruct Hfmt].
  destruct rest as [|v0 [|v1 [|v2 [|v3 rest']]]];
    try (intros <-; by destruct Hfmt).
  unfold version_table. repeat case_decide; intros <-; by destruct Hfmt.
Qed.

Lemma classify_version b0 b1 b2 b3 rest fmt :
  fmt = TES4 ∨ fmt = FO3 ∨ fmt = SSE →
  classify (b0 :: b1 :: b2 :: b3 :: rest) = fmt ↔
  magic_table (le32 b0 b1 b2 b3) = TES4
  ∧ ∃ v0 v1 v2 v3 rest',
      rest = v0 :: v1 :: v2 :: v3 :: rest'
      ∧ version_table (le32 v0 v1 v2 v3) = fmt.
Proof.
  intros Hfmt. unfold classify. cbn zeta.
  destruct (decide (magic_table (le32 b0 b1 b2 b3) = TES4)) as [Heq|Hne].
  - destruct rest as [|v0 [|v1 [|v2 [|v3 rest']]]].
    1-4: split; [intros Hu; subst fmt; by destruct Hfmt as [|[|]]
                |by intros (_ & ? & ? & ? & ? & ? & [=] & _)].
    split.
    + intros Hv. split; [done|]. by exists v0, v1, v2, v3, rest'.
    + by intros (_ & ? & ? & ? & ? & ? & [= <- <- <- <- <-] & Hv).
  - split; [|by intros [? _]].
    intros Hm. subst fmt. unfold magic_table in Hne, Hfmt.
    repeat case_decide; by destruct Hfmt as [|[|]].
Qed.

Lemma magic_table_is magic :
  (magic_table magic = TES3 ↔ magic = 0x100)
  ∧ (magic_table magic = TES4 ↔ magic = 0x00415342)
  ∧ (magic_table magic = FO4 ↔ magic = 0x58445442).
Proof.
  unfold magic_table. repeat case_decide; subst; repeat split; done.
Qed.

Lemma version_table_is version :
  (version_table version = TES4 ↔ version = 103)
  ∧ (version_table version = FO3 ↔ version = 104)
  ∧ (version_table version = SSE ↔ version = 105).
Proof.
  unfold version_table. repeat case_decide; subst; repeat split; done.
Qed.

Lemma classify_short data : (length data < 4)%nat → classify data = UNKNOWN.
Proof.
  destruct data as [|b0 [|b1 [|b2 [|b3 rest]]]]; cbn; try done. lia.
Qed.

Lemma classify_by_magic fmt m data :
  fmt = TES3 ∨ fmt = FO4 →
  0 ≤ m < 2 ^ 32 →
  (∀ magic, magic_table magic = fmt ↔ magic = m) →
  starts_with (u32_pack m) data ↔ classify data = fmt.
Proof.
  intros Hfmt Hm Htable. rewrite starts_with_magic by done. split.
  - intros (b0 & b1 & b2 & b3 & rest & -> & Hle).
    apply classify_magic; [done|]. by apply Htable.
  - destruct data as [|b0 [|b1 [|b2 [|b3 rest]]]];
      try (cbn; intros <-; by destruct Hfmt).
    intros Hc%classify_magic; [|done].
    exists b0, b1, b2, b3, rest. split; [done|]. by apply Htable.
Qed.

Lemma classify_by_version fmt v data :
  fmt = TES4 ∨ fmt = FO3 ∨ fmt = SSE →
  0 ≤ v < 2 ^ 32 →
  (∀ version, version_table version = fmt ↔ version = v) →
  starts_with (u32_pack 0x00415342 ++ u32_pack v) data ↔ classify data = fmt.
Proof.
  intros Hfmt Hv Htable.
  rewrite starts_with_magic_version by done. split.
  - intros (b0 & b1 & b2 & b3 & v0 & v1 & v2 & v3 & rest & -> & Hmagic & Hversion).
    apply classify_version; [done|]. split; [by apply magic_table_is|].
    exists v0, v1, v2, v3, rest. split; [done|]. by apply Htable.
  - destruct data as [|b0 [|b1 [|b2 [|b3 rest]]]];
      try (cbn; intros <-; by destruct Hfmt as [|[|]]).
    intros (Hmagic & v0 & v1 & v2 & v3 & rest' & -> & Hversion)%classify_version;
      [|done].
    exists b0, b1, b2, b3, v0, v1, v2, v3, rest'.
    split; [done|]. split; [by apply magic_table_is|by apply Htable].
Qed.

Lemma classify_signature fmt sig data :
  signature fmt = Some sig →
  starts_with sig data ↔ classify data = fmt.
Proof.
  destruct fmt; cbn [signature]; intros [= <-].
  - apply classify_by_magic; [by left|done|apply magic_table_is].
  - apply classify_by_version; [by left|done|apply version_table_is].
  - apply classify_by_version; [by right; left|done|apply version_table_is].
  - apply classify_by_version; [by right; right|done|apply version_table_is].
  - apply classify_by_magic; [by right|done|apply magic_table_is].
Qed.

(** X2: the sniffer answers with the format whose byte signature the file
    starts with, and with UNKNOWN when it starts with none.  The signatures
    are 00 01 00 00 for TES3, "BTDX" for FO4, and "BSA\0" followed by the
    little-endian version 103, 104 or 105 for TES4, FO3 and SSE. *)
Theorem getFileFormat_signature s p st_size data :
  static_tables (self s) →
  fs s !! p = Some (RegularFile st_size data) →
  st_size = Z.of_nat (length data) →
  ∃ fmt,
    (__getFileFormat p s).1 = Return fmt
    ∧ (∀ fmt' sig, signature fmt' = Some sig →
         starts_with sig data ↔ fmt = fmt')
    ∧ (fmt = UNKNOWN ↔
       ∀ fmt' sig, signature fmt' = Some sig → ¬ starts_with sig data).
Proof.
  intros Htab Hf Hsz. exists (classify data).
  rewrite getFileFormat_run, Hf.
  destruct (sniff_static (self s) p (Some (RegularFile st_size data)) Htab)
    as [-> _].
  rewrite sniff_result_classify by done.
  split; [done|]. split.
  - intros fmt' sig Hsig. by apply classify_signature.
  - split.
    + intros Hu fmt' sig Hsig Hstarts.
      apply (classify_signature fmt' sig data Hsig) in Hstarts.
      rewrite Hu in Hstarts. by subst fmt'.
    + intros Hnone.
      destruct (signature (classify data)) as [sig|] eqn:Hsig.
      * destruct (Hnone _ _ Hsig). by apply (classify_signature _ _ _ Hsig).
      * by destruct (classify data).
Qed.

Lemma getFileFormat_signature_witness :
  (__getFileFormat "Data/b.ba2" (start "Skyrim" demo_files demo_fs)).1
  = Return FO4.
Proof.
  destruct (getFileFormat_signature (start "Skyrim" demo_files demo_fs)
              "Data/b.ba2" 12
              [x42; x54; x44; x58; x01; x00; x00; x00; x47; x4e; x52; x4c])
    as (fmt & Hrun & Hsig & _).
  - apply static_tables_set_organizer, static_tables_init.
  - vm_compute. reflexivity.
  - reflexivity.
  - rewrite Hrun. f_equal.
    apply (Hsig FO4 [x42; x54; x44; x58]); reflexivity.
Defined.

(** ** The tables of [__init__] *)

(** X3: the two game tables have exactly the supported games as keys; every
    supported game has extension ".bsa" or ".ba2" and an expected format
    other than UNKNOWN (each default entry is overwritten), and the
    extension is ".ba2" exactly for the games whose format is FO4. *)
Theorem tables_cover_supported_games c game :
  static_tables c →
  (game ∈ __supportedGames c ↔ is_Some (__gameToExt c !! game))
  ∧ (game ∈ __supportedGames c ↔ is_Some (__gameToFmt c !! game))
  ∧ ∀ ext fmt,
      __gameToExt c !! game = Some ext →
      __gameToFmt c !! game = Some fmt →
      (ext = ".bsa" ∨ ext = ".ba2")
      ∧ fmt ≠ UNKNOWN
      ∧ (ext = ".ba2" ↔ fmt = FO4).
Proof.
  intros (-> & -> & -> & _).
  split; [by rewrite <- gameToExt_dom, elem_of_dom|].
  split; [by rewrite <- gameToFmt_dom, elem_of_dom|].
  intros ext fmt Hext Hfmt.
  assert (game ∈ __supportedGames __init__) as Hin.
  { rewrite <- gameToExt_dom. apply elem_of_dom. by eexists. }
  cbn in Hin. rewrite !elem_of_union, !elem_of_singleton in Hin.
  repeat (destruct Hin as [Hin|Hin]); subst game;
    vm_compute in Hext; vm_compute in Hfmt;
    injection Hext as <-; injection Hfmt as <-;
    (split; [auto|split; [done|split; done]]).
Qed.

Lemma tables_cover_supported_games_witness :
  __gameToExt createPlugin !! "Fallout 4 VR" = Some ".ba2"
  ∧ __gameToFmt createPlugin !! "Fallout 4 VR" = Some FO4.
Proof.
  destruct (tables_cover_supported_games createPlugin "Fallout 4 VR"
              static_tables_init) as (Hext & Hfmt & Htable).
  destruct (proj1 Hext) as [ext Hext']; [vm_compute; reflexivity|].
  destruct (proj1 Hfmt) as [fmt Hfmt']; [vm_compute; reflexivity|].
  destruct (Htable ext fmt Hext' Hfmt') as (_ & _ & Hba2).
  rewrite Hext', Hfmt'.
  vm_compute in Hext'. injection Hext' as <-.
  split; [reflexivity|]. f_equal. by apply Hba2.
Defined.

Lemma supported_game_signature c game :
  static_tables c → game ∈ __supportedGames c →
  ∃ expected sig,
    __gameToFmt c !! game = Some expected ∧ signature expected = Some sig.
Proof.
  intros (-> & _ & -> & _) Hin.
  cbn in Hin. rewrite !elem_of_union, !elem_of_singleton in Hin.
  repeat (destruct Hin as [Hin|Hin]); subst game;
    do 2 eexists; (split; [vm_compute; reflexivity|reflexivity]).
Qed.

(** ** Validation end to end *)

(** X4: under a supported game, a regular file passes validation (NONE)
    exactly when its suffix is the game's extension and its content starts
    with the byte signature of the game's format; in particular no file
    shorter than four bytes passes. *)
Theorem validateArchive_passes s p org st_size data :
  static_tables (self s) →
  __organizer (self s) = Some org →
  gameName org ∈ __supportedGames (self s) →
  fs s !! p = Some (RegularFile st_size data) →
  st_size = Z.of_nat (length data) →
  ∃ ext expected sig,
    __gameToExt (self s) !! gameName org = Some ext
    ∧ __gameToFmt (self s) !! gameName org = Some expected
    ∧ signature expected = Some sig
    ∧ ((__validateArchive p s).1 = Return NONE ↔
       path_suffix p = ext ∧ starts_with sig data)
    ∧ ((length data < 4)%nat → (__validateArchive p s).1 ≠ Return NONE).
Proof.
  intros Htab Horg Hgame Hf Hsz.
  destruct (supported_game_ext _ _ Htab Hgame) as [ext Hext].
  destruct (supported_game_signature _ _ Htab Hgame)
    as (expected & sig & Hexpected & Hsig).
  exists ext, expected, sig. do 3 (split; [done|]).
  assert (is_regular (fs s !! p) = true) as Hreg by by rewrite Hf.
  assert ((__validateArchive p s).1 = Return NONE ↔
          path_suffix p = ext ∧ classify data = expected) as Hpass.
  { destruct (decide (path_suffix p = ext)) as [Hsuffix|Hsuffix].
    - rewrite (validateArchive_sniffs p s org ext expected) by done.
      rewrite Hf.
      destruct (sniff_static (self s) p (Some (RegularFile st_size data)) Htab)
        as [-> _].
      rewrite sniff_result_classify by done. cbn [verdict fst].
      destruct (decide (classify data ≠ expected)) as [Hne|Heq%dec_stable];
        split; try done; by intros [_ ?].
    - rewrite (validateArchive_wrong_extension p s org ext) by done.
      split; [done|by intros [? _]]. }
  split.
  - rewrite Hpass. by rewrite (classify_signature expected sig data Hsig).
  - intros Hshort [_ Hc]%Hpass. rewrite classify_short in Hc by done.
    by subst expected.
Qed.

Lemma validateArchive_passes_witness :
  (__validateArchive "Data/a.bsa" (start "Skyrim" demo_files demo_fs)).1
  = Return NONE.
Proof.
  destruct (validateArchive_passes (start "Skyrim" demo_files demo_fs)
              "Data/a.bsa" (host "Skyrim" demo_files) 12
              [x42; x53; x41; x00; x68; x00; x00; x00; x24; x00; x00; x00])
    as (ext & expected & sig & Hext & Hexpected & Hsig & Hpass & _).
  - apply static_tables_set_organizer, static_tables_init.
  - reflexivity.
  - vm_compute. reflexivity.
  - vm_compute. reflexivity.
  - reflexivity.
  - apply Hpass.
    vm_compute in Hext. injection Hext as <-.
    vm_compute in Hexpected. injection Hexpected as <-.
    injection Hsig as <-. split; vm_compute; reflexivity.
Defined.



Lemma validateArchive_unknown_game p s org :
  is_regular (fs s !! p) = true →
  __organizer (self s) = Some org →
  __gameToExt (self s) !! gameName org = None →
  __validateArchive p s = (Raise KeyError, logged s [EvIsFile p]).
Proof.
  intros Hreg Horg Hext. destruct s as [c f t].
  unfold_validate. cbn -[path_suffix] in *.
  destruct (f !! p) as [[]|]; try done. cbn -[path_suffix].
  rewrite Horg. cbn -[path_suffix]. by rewrite Hext.
Qed.




(** ** Scans that fail *)


Lemma loop_unknown_game files c f org :
  __organizer c = Some org →
  __gameToExt c !! gameName org = None →
  result (listBadArchives_loop files) c f =
  if forallb (λ file, negb (is_regular (f !! file))) files
  then Return ((λ file, mkProblemArchive file NOT_A_FILE) <$> files)
  else Raise KeyError.
Proof.
  intros Horg Hext. induction files as [|file rest IH]; [done|].
  rewrite loop_result_cons. cbn [forallb fmap list_fmap].
  unfold result at 1.
  destruct (is_regular (f !! file)) eqn:Hreg; cbn [negb andb].
  - by rewrite (validateArchive_unknown_game _ _ org).
  - rewrite validateArchive_not_a_file by done. cbn [fst]. rewrite IH.
    by destruct (forallb _ rest).
Qed.

(** X6: a scan under a game that the extension table does not know.  If no
    enumerated path is a regular file the scan returns and stores every
    path as NOT_A_FILE; as soon as one is a regular file the scan raises
    KeyError and the plugin object, [__archives] included, stays as it
    was. *)
Theorem activeProblems_unknown_game s org :
  __organizer (self s) = Some org →
  __gameToExt (self s) !! gameName org = None →
  ((∀ file, file ∈ findFiles org "" "*.b[sa][a2]" →
      is_regular (fs s !! file) = false) →
   ∃ values s',
     activeProblems s = (Return values, s')
     ∧ __archives (self s')
       = (λ file, mkProblemArchive file NOT_A_FILE)
           <$> findFiles org "" "*.b[sa][a2]")
  ∧ ((∃ file, file ∈ findFiles org "" "*.b[sa][a2]"
              ∧ is_regular (fs s !! file) = true) →
     (activeProblems s).1 = Raise KeyError
     ∧ self (activeProblems s).2 = self s
     ∧ fs (activeProblems s).2 = fs s).
Proof.
  intros Horg Hext. destruct s as [c f t]. cbn [self fs] in *.
  rewrite activeProblems_run.
  destruct (listBadArchives_organizer c f org Horg) as [-> _].
  rewrite (loop_unknown_game _ c f org Horg Hext).
  split.
  - intros Hall.
    assert (forallb (λ file, negb (is_regular (f !! file)))
              (findFiles org "" "*.b[sa][a2]") = true) as ->.
    { apply forallb_forall. intros file Hin%list_elem_of_In.
      by rewrite Hall. }
    by do 2 eexists.
  - intros (file & Hin & Hreg).
    assert (forallb (λ file, negb (is_regular (f !! file)))
              (findFiles org "" "*.b[sa][a2]") = false) as ->; [|done].
    apply not_true_is_false. intros Hall.
    rewrite forallb_forall in Hall.
    specialize (Hall file (proj1 (list_elem_of_In _ _) Hin)).
    by rewrite Hreg in Hall.
Qed.

Lemma activeProblems_unknown_game_witness :
  (activeProblems (start "Enderal" demo_files demo_fs)).1 = Raise KeyError
  ∧ ∃ values s',
      activeProblems (start "Enderal" ["Data/e.bsa"; "Data/f.bsa"] demo_fs)
      = (Return values, s')
      ∧ __archives (self s')
        = [mkProblemArchive "Data/e.bsa" NOT_A_FILE;
           mkProblemArchive "Data/f.bsa" NOT_A_FILE].
Proof.
  split.
  - apply (activeProblems_unknown_game (start "Enderal" demo_files demo_fs)
             (host "Enderal" demo_files)).
    + reflexivity.
    + vm_compute. reflexivity.
    + exists "Data/a.bsa". split; [by left|vm_compute; reflexivity].
  - apply (activeProblems_unknown_game
             (start "Enderal" ["Data/e.bsa"; "Data/f.bsa"] demo_fs)
             (host "Enderal" ["Data/e.bsa"; "Data/f.bsa"])).
    + reflexivity.
    + vm_compute. reflexivity.
    + intros file. cbn. rewrite !elem_of_cons, elem_of_nil.
      intros [->|[->|[]]]; vm_compute; reflexivity.
Defined.



(** ** Problem keys and descriptions *)

(** X8: [Problem(key)] and [.value] are inverse.  The four members have the
    values 1 to 4 in declaration order, [Problem(p.value)] is [p], a key
    between 1 and 4 decodes to the member with that value, and any other
    key raises ValueError. *)
Theorem Problem_value_round_trip :
  (ProblemEnum.value <$> [NONE; NOT_A_FILE; WRONG_EXTENSION; WRONG_FORMAT]
   = [1; 2; 3; 4])
  ∧ (∀ p s, Problem_of_value (ProblemEnum.value p) s = (Return p, s))
  ∧ (∀ key s, 1 ≤ key ≤ 4 →
       ∃ p, Problem_of_value key s = (Return p, s) ∧ ProblemEnum.value p = key)
  ∧ (∀ key s, key < 1 ∨ 4 < key →
       Problem_of_value key s = (Raise ValueError, s)).
Proof.
  split; [done|]. split; [by intros []|]. split.
  - intros key s Hkey.
    assert (key = 1 ∨ key = 2 ∨ key = 3 ∨ key = 4) as [Hk|[Hk|[Hk|Hk]]] by lia;
      subst key; by eexists.
  - intros key s Hkey. unfold Problem_of_value.
    repeat case_decide; try lia. done.
Qed.

Lemma Problem_value_round_trip_witness :
  Problem_of_value 3 (start "Skyrim" demo_files demo_fs)
  = (Return WRONG_EXTENSION, start "Skyrim" demo_files demo_fs)
  ∧ Problem_of_value 7 (start "Skyrim" demo_files demo_fs)
    = (Raise ValueError, start "Skyrim" demo_files demo_fs).
Proof.
  destruct Problem_value_round_trip as (_ & Hvalue & _ & Hother).
  split.
  - apply (Hvalue WRONG_EXTENSION).
  - apply Hother. lia.
Defined.

Lemma descriptions_lookup c p :
  __descriptions c = __descriptions __init__ →
  p ≠ NONE →
  ∃ d, __descriptions c !! ProblemEnum.value p = Some d
       ∧ short d ≠ ""
       ∧ ∃ prefix, long d = (prefix +:+ "{}")%string
                   ∧ forallb (λ ch, negb (Ascii.eqb ch "{"%char))
                             (String.list_ascii_of_string prefix) = true.
Proof.
  intros -> Hp.
  destruct p; [done|..]; eexists; (split; [vm_compute; reflexivity|]);
    (split; [done|]).
  - by exists "The following archives are not valid files:".
  - by exists "The following archives are using an extension meant for a different game:".
  - by exists "The following archives are using the wrong format. They probably need to be repacked for the current game:".
Qed.

Lemma descriptions_lookup_NONE c :
  __descriptions c = __descriptions __init__ →
  __descriptions c !! ProblemEnum.value NONE = None.
Proof. intros ->. vm_compute. reflexivity. Qed.

Lemma shortDescription_run key s :
  shortDescription key s =
  match (Problem_of_value key s).1 with
  | Return p =>
      match __descriptions (self s) !! ProblemEnum.value p with
      | Some d => (Return (short d), s)
      | None => (Raise IndexError, s)
      end
  | Raise e => (Raise e, s)
  end.
Proof.
  unfold shortDescription, Problem_of_value, mbind, M_bind, bind, gets.
  repeat case_decide; cbn; try done; by destruct (_ !! _).
Qed.

(** X9: [shortDescription] answers every key that stands for a problem
    other than NONE with the non-empty short text stored for it, raises
    IndexError for the key of NONE, and raises ValueError for a key that is
    no member's value; it never changes the state. *)
Theorem shortDescription_keys s :
  __descriptions (self s) = __descriptions __init__ →
  (∀ p, p ≠ NONE →
     ∃ d, __descriptions (self s) !! ProblemEnum.value p = Some d
          ∧ short d ≠ ""
          ∧ shortDescription (ProblemEnum.value p) s = (Return (short d), s))
  ∧ shortDescription (ProblemEnum.value NONE) s = (Raise IndexError, s)
  ∧ (∀ key, key < 1 ∨ 4 < key →
       shortDescription key s = (Raise ValueError, s)).
Proof.
  intros Hdesc. split; [|split].
  - intros p Hp.
    destruct (descriptions_lookup _ p Hdesc Hp) as (d & Hd & Hshort & _).
    exists d. do 2 (split; [done|]).
    rewrite shortDescription_run.
    assert ((Problem_of_value (ProblemEnum.value p) s).1 = Return p) as ->
      by by destruct p.
    by rewrite Hd.
  - rewrite shortDescription_run.
    assert ((Problem_of_value (ProblemEnum.value NONE) s).1 = Return NONE)
      as -> by done.
    by rewrite (descriptions_lookup_NONE _ Hdesc).
  - intros key Hkey. rewrite shortDescription_run.
    unfold Problem_of_value. repeat case_decide; try lia. done.
Qed.

Lemma shortDescription_keys_witness :
  let s := start "Skyrim" demo_files demo_fs in
  shortDescription 4 s = (Return "Incompatible archive formats detected", s).
Proof.
  intros s.
  destruct (shortDescription_keys s eq_refl) as (Hkeys & _).
  destruct (Hkeys WRONG_FORMAT) as (d & Hd & _ & Hrun); [discriminate|].
  refine (eq_trans Hrun _). vm_compute in Hd. injection Hd as <-. reflexivity.
Defined.

Lemma append_String ch (t u : string) :
  (String ch t +:+ u)%string = String ch (t +:+ u)%string.
Proof. reflexivity. Qed.

Lemma append_empty_r (t : string) : (t +:+ "")%string = t.
Proof.
  induction t as [|ch t IH]; [done|]. by rewrite append_String, IH.
Qed.

Lemma str_format_prefix prefix arg :
  forallb (λ ch, negb (Ascii.eqb ch "{"%char))
          (String.list_ascii_of_string prefix) = true →
  str_format (prefix +:+ "{}") arg = (prefix +:+ arg)%string.
Proof.
  induction prefix as [|ch prefix IH]; intros Hprefix.
  { change (str_format "{}" arg = arg). cbn. apply append_empty_r. }
  cbn in Hprefix. apply andb_true_iff in Hprefix as [Hch Hprefix].
  apply negb_true_iff in Hch.
  specialize (IH Hprefix).
  rewrite !append_String.
  cbn [str_format]. fold str_format.
  destruct (prefix +:+ "{}")%string as [|ch' rest] eqn:Hrest.
  { by destruct prefix. }
  rewrite Hch. cbn [andb]. by rewrite IH.
Qed.

Lemma fullDescription_run key s :
  fullDescription key s =
  match (Problem_of_value key s).1 with
  | Return p =>
      match __descriptions (self s) !! ProblemEnum.value p with
      | Some d =>
          (Return
             (str_format (long d)
                ("<br><br>•  " +:+
                 String.concat "<br>•  "
                   ((λ x, path_name (path x))
                      <$> filter (λ x, problem x = p) (__archives (self s))))),
           s)
      | None => (Raise IndexError, s)
      end
  | Raise e => (Raise e, s)
  end.
Proof.
  unfold fullDescription, Problem_of_value, mbind, M_bind, bind, gets.
  repeat case_decide; cbn -[str_format]; try done; by destruct (_ !! _).
Qed.

(** X10: for a key that stands for a problem other than NONE,
    [fullDescription] returns the long text of that problem with its "{}"
    replaced by a bullet list: "<br><br>•  " followed by the file names of
    the stored archives with that problem, in stored order, separated by
    "<br>•  ".  With no such archive the list is a lone bullet.  The key of
    NONE raises IndexError, a key that is no member's value ValueError. *)
Theorem fullDescription_lists_archives s :
  __descriptions (self s) = __descriptions __init__ →
  (∀ p, p ≠ NONE →
     ∃ d prefix,
       __descriptions (self s) !! ProblemEnum.value p = Some d
       ∧ long d = (prefix +:+ "{}")%string
       ∧ fullDescription (ProblemEnum.value p) s =
         (Return
            (prefix +:+ "<br><br>•  " +:+
             String.concat "<br>•  "
               ((λ x, path_name (path x))
                  <$> filter (λ x, problem x = p) (__archives (self s))))%string,
          s)
       ∧ (Forall (λ x, problem x ≠ p) (__archives (self s)) →
          fullDescription (ProblemEnum.value p) s =
          (Return (prefix +:+ "<br><br>•  ")%string, s)))
  ∧ fullDescription (ProblemEnum.value NONE) s = (Raise IndexError, s)
  ∧ (∀ key, key < 1 ∨ 4 < key →
       fullDescription key s = (Raise ValueError, s)).
Proof.
  intros Hdesc. split; [|split].
  - intros p Hp.
    destruct (descriptions_lookup _ p Hdesc Hp)
      as (d & Hd & _ & prefix & Hlong & Hprefix).
    exists d, prefix. do 2 (split; [done|]).
    assert (fullDescription (ProblemEnum.value p) s =
            (Return
               (prefix +:+ "<br><br>•  " +:+
                String.concat "<br>•  "
                  ((λ x, path_name (path x))
                     <$> filter (λ x, problem x = p) (__archives (self s))))%string,
             s)) as Hrun.
    { rewrite fullDescription_run.
      assert ((Problem_of_value (ProblemEnum.value p) s).1 = Return p) as ->
        by by destruct p.
      by rewrite Hd, Hlong, str_format_prefix. }
    split; [done|].
    intros Hnone. rewrite Hrun.
    assert (filter (λ x, problem x = p) (__archives (self s)) = []) as ->.
    { revert Hnone. generalize (__archives (self s)). intros l Hnone.
      induction Hnone as [|a l Ha _ IH]; [done|].
      by rewrite filter_cons_False. }
    cbn. by rewrite append_empty_r.
  - rewrite fullDescription_run.
    assert ((Problem_of_value (ProblemEnum.value NONE) s).1 = Return NONE)
      as -> by done.
    by rewrite (descriptions_lookup_NONE _ Hdesc).
  - intros key Hkey. rewrite fullDescription_run.
    unfold Problem_of_value. repeat case_decide; try lia. done.
Qed.

Lemma fullDescription_lists_archives_witness :
  let s := (activeProblems (start "Skyrim" demo_files demo_fs)).2 in
  fullDescription 4 s =
  (Return "The following archives are using the wrong format. They probably need to be repacked for the current game:<br><br>•  c.bsa<br>•  d.bsa",
   s).
Proof.
  intros s.
  destruct (fullDescription_lists_archives s eq_refl) as (Hkeys & _).
  destruct (Hkeys WRONG_FORMAT) as (d & prefix & Hd & Hlong & Hrun & _);
    [discriminate|].
  refine (eq_trans Hrun _).
  vm_compute in Hd. injection Hd as <-.
  assert (prefix = "The following archives are using the wrong format. They probably need to be repacked for the current game:") as ->.
  { clear -Hlong. cbn in Hlong.
    assert (∀ a b : string, (a +:+ "{}")%string = (b +:+ "{}")%string → a = b)
      as Hinj.
    { induction a as [|ch a IH]; intros [|ch' b]; cbn; try done.
      - intros [= <- Hb]. by destruct b as [|? [|? ?]].
      - intros [= -> Ha]. by destruct a as [|? [|? ?]].
      - intros [= -> Hab]. f_equal. by apply IH. }
    by apply Hinj. }
  vm_compute. reflexivity.
Defined.

(** ** What the host sees after a scan *)

Lemma listBadArchives_yields_problems c f bad :
  result __listBadArchives c f = Return bad →
  Forall (λ a, problem a ≠ NONE) bad.
Proof.
  intros Hbad. destruct (__organizer c) as [org|] eqn:Horg.
  - destruct (listBadArchives_organizer c f org Horg) as [Hr _].
    rewrite Hr in Hbad. by eapply loop_yields_problems.
  - destruct (listBadArchives_no_organizer c f Horg) as [Hr _].
    by rewrite Hr in Hbad.
Qed.

(** X11: every key a scan returns can be handed back to the plugin.  It is
    the value of a problem other than NONE that some stored archive has,
    and in the state the scan leaves, [shortDescription] and
    [fullDescription] return a text for it and [hasGuidedFix] returns
    [False]: none of them raises. *)
Theorem reported_keys_are_describable s values s' :
  activeProblems s = (Return values, s') →
  __descriptions (self s) = __descriptions __init__ →
  ∀ key, key ∈ values →
    ∃ p, p ≠ NONE
         ∧ key = ProblemEnum.value p
         ∧ (∃ a, a ∈ __archives (self s') ∧ problem a = p)
         ∧ (∃ d, shortDescription key s' = (Return d, s'))
         ∧ (∃ text, fullDescription key s' = (Return text, s'))
         ∧ hasGuidedFix key s' = (Return false, s').
Proof.
  destruct s as [c f t]. rewrite activeProblems_run.
  destruct (result __listBadArchives c f) as [bad|e] eqn:Hbad; [|done].
  intros [= <- <-] Hdesc key Hkey. cbn [self __archives set_archives] in *.
  destruct (problem_values_spec bad) as [_ Hvalues].
  apply Hvalues in Hkey as (a & Hin & <-).
  pose proof (listBadArchives_yields_problems c f bad Hbad) as Hall.
  rewrite Forall_forall in Hall. specialize (Hall a Hin).
  exists (problem a). split; [done|]. split; [done|].
  split; [by exists a|].
  assert (∀ st, (Problem_of_value (ProblemEnum.value (problem a)) st).1
                = Return (problem a)) as Hdecode
    by (intros st; by destruct (problem a)).
  destruct (descriptions_lookup (set_archives bad c) (problem a) Hdesc Hall)
    as (d & Hd & _).
  split; [|split].
  - eexists. rewrite shortDescription_run, Hdecode. cbn [self]. by rewrite Hd.
  - eexists. rewrite fullDescription_run, Hdecode. cbn [self]. by rewrite Hd.
  - by destruct (problem a).
Qed.

Lemma reported_keys_are_describable_witness :
  let r := activeProblems (start "Skyrim" demo_files demo_fs) in
  ∃ d, shortDescription 2 r.2 = (Return d, r.2).
Proof.
  intros r.
  destruct (reported_keys_are_describable
              (start "Skyrim" demo_files demo_fs) [3; 4; 2] r.2) with (key := 2)
    as (p & _ & _ & _ & Hshort & _).
  - vm_compute. reflexivity.
  - reflexivity.
  - rewrite !elem_of_cons. auto.
  - exact Hshort.
Defined.

Lemma problem_values_nil archives : problem_values archives = [] ↔ archives = [].
Proof.
  destruct (problem_values_spec archives) as [_ Hvalues]. split.
  - intros Hnil. destruct archives as [|a archives]; [done|].
    assert (ProblemEnum.value (problem a) ∈ problem_values (a :: archives))
      as Hin by (apply Hvalues; exists a; split; [by left|done]).
    rewrite Hnil in Hin. by apply elem_of_nil in Hin.
  - by intros ->.
Qed.

Lemma omap_nil {A B} (g : A → option B) (l : list A) :
  omap g l = [] ↔ ∀ x, x ∈ l → g x = None.
Proof.
  induction l as [|x l IH].
  { split; [by intros _ x ?%elem_of_nil|done]. }
  change (omap g (x :: l))
    with (match g x with Some y => y :: omap g l | None => omap g l end).
  destruct (g x) as [y|] eqn:Hx.
  - split; [done|]. intros Hall. specialize (Hall x (list_elem_of_here _ _)).
    congruence.
  - rewrite IH. split.
    + intros Hall z [->|Hin]%elem_of_cons; [done|by apply Hall].
    + intros Hall z Hin. apply Hall. by right.
Qed.

(** X12: a scan on which every validation returns reports no problem (the
    empty list) exactly when every enumerated file validates to NONE; it
    then stores the empty list. *)
Theorem no_problem_iff_all_pass s org :
  __organizer (self s) = Some org →
  (∀ file, file ∈ findFiles org "" "*.b[sa][a2]" →
     ∃ problem, (__validateArchive file s).1 = Return problem) →
  ((activeProblems s).1 = Return [] ↔
   ∀ file, file ∈ findFiles org "" "*.b[sa][a2]" →
     (__validateArchive file s).1 = Return NONE)
  ∧ ((activeProblems s).1 = Return [] →
     __archives (self (activeProblems s).2) = []).
Proof.
  intros Horg Hall.
  assert (∀ file, file ∈ findFiles org "" "*.b[sa][a2]" →
            ∃ problem, result (__validateArchive file) (self s) (fs s)
                       = Return problem) as Hall'.
  { intros file Hin. rewrite <- validateArchive_result. by apply Hall. }
  rewrite (activeProblems_trace s org Horg Hall').
  cbn [fst snd self __archives set_archives].
  assert (Return (problem_values
                    (omap (bad_archive (self s) (fs s))
                          (findFiles org "" "*.b[sa][a2]"))) = Return []
          ↔ omap (bad_archive (self s) (fs s)) (findFiles org "" "*.b[sa][a2]")
            = []) as Hnil.
  { rewrite <- problem_values_nil. split; [by intros [= ->]|by intros ->]. }
  split; [|by intros ?%Hnil].
  rewrite Hnil, omap_nil. split.
  - intros Hnone file Hin. specialize (Hnone file Hin).
    destruct (Hall file Hin) as [problem Hproblem]. rewrite Hproblem.
    unfold bad_archive in Hnone.
    rewrite <- validateArchive_result, Hproblem in Hnone.
    destruct (decide (problem ≠ NONE)) as [|Heq%dec_stable]; [done|].
    by rewrite Heq.
  - intros Hpass file Hin. unfold bad_archive.
    by rewrite <- validateArchive_result, (Hpass file Hin).
Qed.

Lemma no_problem_iff_all_pass_witness :
  (activeProblems (start "Skyrim" ["Data/a.bsa"] demo_fs)).1 = Return [].
Proof.
  apply (no_problem_iff_all_pass (start "Skyrim" ["Data/a.bsa"] demo_fs)
           (host "Skyrim" ["Data/a.bsa"])).
  - reflexivity.
  - intros file. cbn. rewrite elem_of_cons, elem_of_nil.
    intros [->|[]]. eexists. vm_compute. reflexivity.
  - intros file. cbn. rewrite elem_of_cons, elem_of_nil.
    intros [->|[]]. vm_compute. reflexivity.
Defined.

(** ** Scans do not depend on the stored list *)

Lemma same_config_set_archives a c : same_config (set_archives a c) c.
Proof. by repeat split. Qed.

Lemma steady_ret {A} (a : A) : steady (mret a).
Proof. split; [apply observer_ret|by intros c c' f _]. Qed.

Lemma steady_raise {A} (e : exn) : steady (@raise A e).
Proof. split; [apply observer_raise|by intros c c' f _]. Qed.

Lemma steady_bind {A B} (m : M A) (k : A → M B) :
  steady m → (∀ a, steady (k a)) → steady (m ≫= k).
Proof.
  intros [Hm Hm'] Hk. split.
  { apply observer_bind; [done|]. intros a. apply Hk. }
  intros c c' f Hc.
  rewrite !result_bind, !events_bind; try done; try (intros a; apply Hk).
  destruct (Hm' c c' f Hc) as [-> ->].
  destruct (result m c' f) as [a|e]; [|done].
  by destruct (proj2 (Hk a) c c' f Hc) as [-> ->].
Qed.

Lemma steady_gets_self {A} (g : ArchiveCompatibilityChecker → A) :
  (∀ c c', same_config c c' → g c = g c') →
  steady (gets (λ s, g (self s))).
Proof.
  intros Hg. split; [apply observer_gets_self|].
  intros c c' f Hc. unfold result, events, gets. cbn. by rewrite (Hg c c').
Qed.

Lemma steady_getitem {K V} `{Countable K} (d : gmap K V) (k : K) :
  steady (getitem d k).
Proof.
  split; [apply observer_getitem|].
  intros c c' f _. unfold getitem. by destruct (d !! k).
Qed.

Lemma steady_path_is_file p : steady (path_is_file p).
Proof. split; [apply observer_path_is_file|by intros c c' f _]. Qed.

Lemma steady_the_organizer : steady the_organizer.
Proof.
  apply steady_bind.
  - apply (steady_gets_self __organizer). by intros c c' (? & _).
  - intros [o|]; [apply steady_ret|apply steady_raise].
Qed.

Lemma steady_getCurrentGame : steady __getCurrentGame.
Proof.
  apply steady_bind; [apply steady_the_organizer|intros o; apply steady_ret].
Qed.

Lemma steady_getFileFormat p : steady (__getFileFormat p).
Proof.
  split; [apply observer_getFileFormat|].
  intros c c' f (_ & _ & _ & Hm & Hv).
  by rewrite !getFileFormat_result, !getFileFormat_events, Hm, Hv.
Qed.

Lemma steady_validateArchive p : steady (__validateArchive p).
Proof.
  apply steady_bind; [apply steady_path_is_file|intros is_file].
  destruct (negb is_file); [apply steady_ret|].
  apply steady_bind.
  { apply (steady_gets_self __gameToExt). by intros c c' (_ & ? & _). }
  intros gameToExt.
  apply steady_bind; [apply steady_getCurrentGame|intros game].
  apply steady_bind; [apply steady_getitem|intros ext].
  destruct (negb _); [apply steady_ret|].
  apply steady_bind; [apply steady_getFileFormat|intros fmt].
  apply steady_bind.
  { apply (steady_gets_self __gameToFmt). by intros c c' (_ & _ & ? & _). }
  intros gameToFmt.
  apply steady_bind; [apply steady_getCurrentGame|intros game'].
  apply steady_bind; [apply steady_getitem|intros expected].
  destruct (decide _); apply steady_ret.
Qed.

Lemma steady_listBadArchives : steady __listBadArchives.
Proof.
  apply steady_bind; [apply steady_the_organizer|intros org].
  induction (findFiles org "" "*.b[sa][a2]") as [|file rest IH];
    [apply steady_ret|].
  apply steady_bind; [apply steady_validateArchive|intros problem].
  apply steady_bind; [apply IH|intros yielded; apply steady_ret].
Qed.

(** X13: a scan does not look at the list the previous scan stored.  Its
    outcome, the list it stores and its file accesses are the same whatever
    [__archives] held, so that a second scan directly after a first one
    returns the same keys and stores the same list. *)
Theorem activeProblems_ignores_stored_list :
  (∀ s archives,
     let s0 := mkState (set_archives archives (self s)) (fs s) (trace s) in
     (activeProblems s0).1 = (activeProblems s).1
     ∧ ((∃ values, (activeProblems s).1 = Return values) →
        activeProblems s0 = activeProblems s))
  ∧ (∀ s values,
       (activeProblems s).1 = Return values →
       (activeProblems (activeProblems s).2).1 = Return values
       ∧ self (activeProblems (activeProblems s).2).2
         = self (activeProblems s).2).
Proof.
  assert (∀ c f a,
            result __listBadArchives (set_archives a c) f
            = result __listBadArchives c f
            ∧ events __listBadArchives (set_archives a c) f
              = events __listBadArchives c f) as Hsame.
  { intros c f a.
    apply (proj2 steady_listBadArchives), same_config_set_archives. }
  split.
  - intros [c f t] archives. cbn [self fs trace].
    rewrite !activeProblems_run.
    destruct (Hsame c f archives) as [-> ->].
    destruct (result __listBadArchives c f) as [bad|e]; [|by split; [|intros []]].
    by split.
  - intros [c f t] values. rewrite activeProblems_run.
    destruct (result __listBadArchives c f) as [bad|e] eqn:Hbad; [|done].
    cbn [fst snd]. intros [= <-].
    rewrite activeProblems_run.
    destruct (Hsame c f bad) as [-> ->]. by rewrite Hbad.
Qed.

Lemma activeProblems_ignores_stored_list_witness :
  let s := start "Skyrim" demo_files demo_fs in
  (activeProblems (activeProblems s).2).1 = Return [3; 4; 2].
Proof.
  intros s.
  apply (proj2 activeProblems_ignores_stored_list s [3; 4; 2]).
  vm_compute. reflexivity.
Defined.

(** ** What every reachable state satisfies *)

Lemma hasGuidedFix_state key s : (hasGuidedFix key s).2 = s.
Proof.
  unfold hasGuidedFix, Problem_of_value, mbind, M_bind, bind.
  by repeat case_decide.
Qed.

Lemma shortDescription_state key s : (shortDescription key s).2 = s.
Proof.
  rewrite shortDescription_run.
  destruct ((Problem_of_value key s).1); [|done].
  by destruct (_ !! _).
Qed.

Lemma fullDescription_state key s : (fullDescription key s).2 = s.
Proof.
  rewrite fullDescription_run.
  destruct ((Problem_of_value key s).1); [|done].
  by destruct (_ !! _).
Qed.

Lemma configured_set_organizer o c :
  configured c → configured (set_organizer o c).
Proof. intros [Htab Hdesc]. split; [by apply static_tables_set_organizer|done]. Qed.

Lemma configured_set_archives a c :
  configured c → configured (set_archives a c).
Proof. intros [Htab Hdesc]. split; [by apply static_tables_set_archives|done]. Qed.

Lemma run_call_invariant fs0 k s :
  configured (self s)
  ∧ Forall (λ a, problem a ≠ NONE) (__archives (self s))
  ∧ fs s = fs0 →
  configured (self (run_call k s))
  ∧ Forall (λ a, problem a ≠ NONE) (__archives (self (run_call k s)))
  ∧ fs (run_call k s) = fs0.
Proof.
  intros (Hconf & Harchives & Hfs).
  destruct k as [organizer| |key|key|key|key]; cbn [run_call].
  - cbn. split; [by apply configured_set_organizer|done].
  - destruct s as [c f t]. cbn [self fs] in *. rewrite activeProblems_run.
    destruct (result __listBadArchives c f) as [bad|e] eqn:Hbad; cbn; [|done].
    split; [by apply configured_set_archives|].
    split; [by eapply listBadArchives_yields_problems|done].
  - by rewrite shortDescription_state.
  - by rewrite fullDescription_state.
  - by rewrite hasGuidedFix_state.
  - done.
Qed.

(** X14: whatever sequence of public methods the host calls on a fresh
    plugin, with whatever arguments and whether or not calls raise: the
    tables and descriptions built by [__init__] are never altered, no stored
    archive carries the problem NONE, and the file system is as it was at
    the start. *)
Theorem plugin_invariant (fs0 : gmap string node) (calls : list call) :
  let s := run_calls calls (mkState createPlugin fs0 []) in
  configured (self s)
  ∧ Forall (λ a, problem a ≠ NONE) (__archives (self s))
  ∧ fs s = fs0.
Proof.
  cbn zeta.
  assert (configured (self (mkState createPlugin fs0 []))
          ∧ Forall (λ a, problem a ≠ NONE)
                   (__archives (self (mkState createPlugin fs0 [])))
          ∧ fs (mkState createPlugin fs0 []) = fs0) as Hinit.
  { split; [split; [apply static_tables_init|done]|]. by split. }
  revert Hinit. generalize (mkState createPlugin fs0 []).
  unfold run_calls.
  induction calls as [|k calls IH]; intros s Hs; [done|].
  cbn [foldl]. apply IH. by apply run_call_invariant.
Qed.

Example plugin_invariant_demo :
  let s := run_calls [CallActiveProblems; CallInit (host "Enderal" demo_files);
                      CallActiveProblems; CallShortDescription 9;
                      CallInit (host "Skyrim" demo_files); CallActiveProblems;
                      CallFullDescription 3]
                     (mkState createPlugin demo_fs []) in
  length (__archives (self s)) = 5%nat ∧ fs s = demo_fs.
Proof. vm_compute. split; reflexivity. Qed.

(** ** One archive, two games *)

Lemma validateArchive_pass_iff s p org ext expected st_size data :
  static_tables (self s) →
  __organizer (self s) = Some org →
  __gameToExt (self s) !! gameName org = Some ext →
  __gameToFmt (self s) !! gameName org = Some expected →
  fs s !! p = Some (RegularFile st_size data) →
  st_size = Z.of_nat (length data) →
  (__validateArchive p s).1 = Return NONE ↔
  path_suffix p = ext ∧ classify data = expected.
Proof.
  intros Htab Horg Hext Hexpected Hf Hsz.
  assert (is_regular (fs s !! p) = true) as Hreg by by rewrite Hf.
  destruct (decide (path_suffix p = ext)) as [Hsuffix|Hsuffix].
  - rewrite (validateArchive_sniffs p s org ext expected) by done.
    rewrite Hf.
    destruct (sniff_static (self s) p (Some (RegularFile st_size data)) Htab)
      as [-> _].
    rewrite sniff_result_classify by done. cbn [verdict fst].
    destruct (decide (classify data ≠ expected)) as [Hne|Heq%dec_stable];
      split; try done; by intros [_ ?].
  - rewrite (validateArchive_wrong_extension p s org ext) by done.
    split; [done|by intros [? _]].
Qed.

(** X15: the current game matters to validation only through its extension
    and its expected format.  A regular file that passes under two games
    shows that the two games share both; and under two games that share
    both, the file passes under one exactly when it passes under the
    other. *)
Theorem validateArchive_between_games s1 s2 p org1 org2 st_size data :
  static_tables (self s1) → static_tables (self s2) →
  __organizer (self s1) = Some org1 →
  __organizer (self s2) = Some org2 →
  gameName org1 ∈ __supportedGames (self s1) →
  gameName org2 ∈ __supportedGames (self s2) →
  fs s1 !! p = Some (RegularFile st_size data) →
  fs s2 !! p = Some (RegularFile st_size data) →
  st_size = Z.of_nat (length data) →
  ((__validateArchive p s1).1 = Return NONE →
   (__validateArchive p s2).1 = Return NONE →
   __gameToExt (self s1) !! gameName org1 = __gameToExt (self s2) !! gameName org2
   ∧ __gameToFmt (self s1) !! gameName org1
     = __gameToFmt (self s2) !! gameName org2)
  ∧ (__gameToExt (self s1) !! gameName org1
     = __gameToExt (self s2) !! gameName org2 →
     __gameToFmt (self s1) !! gameName org1
     = __gameToFmt (self s2) !! gameName org2 →
     (__validateArchive p s1).1 = Return NONE ↔
     (__validateArchive p s2).1 = Return NONE).
Proof.
  intros Htab1 Htab2 Horg1 Horg2 Hgame1 Hgame2 Hf1 Hf2 Hsz.
  destruct (supported_game_ext _ _ Htab1 Hgame1) as [ext1 Hext1].
  destruct (supported_game_ext _ _ Htab2 Hgame2) as [ext2 Hext2].
  destruct (supported_game_fmt _ _ Htab1 Hgame1) as [fmt1 Hfmt1].
  destruct (supported_game_fmt _ _ Htab2 Hgame2) as [fmt2 Hfmt2].
  rewrite (validateArchive_pass_iff s1 p org1 ext1 fmt1 st_size data) by done.
  rewrite (validateArchive_pass_iff s2 p org2 ext2 fmt2 st_size data) by done.
  rewrite Hext1, Hext2, Hfmt1, Hfmt2. split.
  - intros [<- <-] [<- <-]. done.
  - by intros [= <-] [= <-].
Qed.

Lemma validateArchive_between_games_witness :
  (__validateArchive "Data/a.bsa" (start "Skyrim" demo_files demo_fs)).1
  = Return NONE ↔
  (__validateArchive "Data/a.bsa" (start "New Vegas" demo_files demo_fs)).1
  = Return NONE.
Proof.
  apply (validateArchive_between_games
           (start "Skyrim" demo_files demo_fs)
           (start "New Vegas" demo_files demo_fs) "Data/a.bsa"
           (host "Skyrim" demo_files) (host "New Vegas" demo_files) 12
           [x42; x53; x41; x00; x68; x00; x00; x00; x24; x00; x00; x00]).
  - apply static_tables_set_organizer, static_tables_init.
  - apply static_tables_set_organizer, static_tables_init.
  - reflexivity.
  - reflexivity.
  - vm_compute. reflexivity.
  - vm_compute. reflexivity.
  - vm_compute. reflexivity.
  - vm_compute. reflexivity.
  - reflexivity.
  - vm_compute. reflexivity.
  - vm_compute. reflexivity.
Defined.

Example skyrim_archive_flagged_under_special_edition :
  (__validateArchive "Data/a.bsa" (start "Skyrim" demo_files demo_fs)).1
  = Return NONE
  ∧ (__validateArchive "Data/a.bsa"
       (start "Skyrim Special Edition" demo_files demo_fs)).1
    = Return WRONG_FORMAT.
Proof. vm_compute. split; reflexivity. Qed.
